(** * Kanban Board: persistence, button policy and interaction controller

    A shallow embedding of [Kanban Board/script.js].  The page is modelled
    as the script sees it: the fixed NodeList [columns], the card elements
    (kept in a store, because the script holds references to them in
    [draggedCard] and [editingCard]), the modal form, and the single
    localStorage entry.  The inside of a card is a small element tree that is
    only ever reached through [querySelector]. *)

From stdpp Require Import base list strings pretty.
From Stdlib Require Import String Ascii Lia.

Open Scope string_scope.
Open Scope list_scope.

(** ** A small document tree *)

Module Dom.

#[warnings="-register-all"]
Inductive node :=
| Text (s : string)
| Elem (tag : string) (cls : list string) (kids : list node).

(** The two kinds of simple selector the script uses on a card:
    a tag name (['h3'], ['p']) and a class (['.card-actions'], ['.update']). *)
Inductive selector :=
| ByTag (t : string)
| ByClass (c : string).

Definition has_class (c : string) (cs : list string) : bool :=
  existsb (String.eqb c) cs.

Definition matches (sel : selector) (n : node) : bool :=
  match n, sel with
  | Elem t _ _, ByTag t' => String.eqb t t'
  | Elem _ cs _, ByClass c => has_class c cs
  | Text _, _ => false
  end.

Definition kids_of (n : node) : list node :=
  match n with
  | Elem _ _ ks => ks
  | Text _ => []
  end.

(** First hit of [f] along a list: the document-order search of
    [querySelector] over siblings. *)
Definition first_some {A B} (f : A -> option B) : list A -> option B :=
  fix go l :=
    match l with
    | [] => None
    | x :: l' => match f x with
                 | Some r => Some r
                 | None => go l'
                 end
    end.

(** [find sel n]: the first element in the subtree of [n], [n] included,
    in document (pre-)order, that matches [sel]. *)
Fixpoint find (sel : selector) (n : node) : option node :=
  if matches sel n then Some n
  else match n with
       | Elem _ _ ks => first_some (find sel) ks
       | Text _ => None
       end.

(** [element.querySelector(sel)], given the children of [element]. *)
Definition querySelector (sel : selector) (ks : list node) : option node :=
  first_some (find sel) ks.

(** Rewriting the first hit of [g] in a list by the nodes [g] returns for it;
    [None] when nothing was hit. *)
Definition rewrite_first {A} (g : A -> option (list A)) : list A -> option (list A) :=
  fix go l :=
    match l with
    | [] => None
    | x :: l' => match g x with
                 | Some r => Some (r ++ l')
                 | None => option_map (cons x) (go l')
                 end
    end.

(** [edit sel f n]: the element [find sel n] replaced in place by [f] of it
    (an empty list removes it). *)
Fixpoint edit (sel : selector) (f : node -> list node) (n : node) : option (list node) :=
  if matches sel n then Some (f n)
  else match n with
       | Elem t cs ks =>
           option_map (fun ks' => [Elem t cs ks']) (rewrite_first (edit sel f) ks)
       | Text _ => None
       end.

(** The element [querySelector sel ks] mutated in place; the tree is
    returned unchanged when there is no such element. *)
Definition with_first (sel : selector) (f : node -> list node) (ks : list node) : list node :=
  match rewrite_first (edit sel f) ks with
  | Some ks' => ks'
  | None => ks
  end.

(** [node.textContent] (getter): the text of all descendants, in order. *)
Fixpoint textContent (n : node) : string :=
  match n with
  | Text s => s
  | Elem _ _ ks => String.concat "" (map textContent ks)
  end.

(** The children a node has after [node.textContent = s]: a single text
    node, or none for the empty string. *)
Definition text_nodes (s : string) : list node :=
  if String.eqb s "" then [] else [Text s].

(** [node.textContent = s] (setter). *)
Definition set_textContent (s : string) (n : node) : node :=
  match n with
  | Elem t cs _ => Elem t cs (text_nodes s)
  | Text _ => Text s
  end.

(** [parent.prepend(child)]. *)
Definition prepend (child : node) (n : node) : node :=
  match n with
  | Elem t cs ks => Elem t cs (child :: ks)
  | Text s => Text s
  end.

(** The number of elements matching [sel] in a subtree / below an element. *)
Fixpoint count (sel : selector) (n : node) : nat :=
  (if matches sel n then 1 else 0) +
  match n with
  | Elem _ _ ks => list_sum (map (count sel) ks)
  | Text _ => 0
  end.

Definition count_in (sel : selector) (ks : list node) : nat :=
  list_sum (map (count sel) ks).

End Dom.

Import Dom.

(** ** Strings as the script uses them *)

(** [String.prototype.trim]: white space and line terminators, for the code
    units below 256 that [ascii] covers (TAB, LF, VT, FF, CR, SP, NBSP). *)
Definition is_space (a : ascii) : bool :=
  let n := nat_of_ascii a in
  (Nat.eqb n 9 || Nat.eqb n 10 || Nat.eqb n 11 || Nat.eqb n 12 ||
   Nat.eqb n 13 || Nat.eqb n 32 || Nat.eqb n 160)%bool.

Fixpoint trim_start (s : string) : string :=
  match s with
  | String a s' => if is_space a then trim_start s' else s
  | EmptyString => EmptyString
  end.

Fixpoint trim_end (s : string) : string :=
  match s with
  | String a s' =>
      match trim_end s' with
      | EmptyString => if is_space a then EmptyString else String a EmptyString
      | t => String a t
      end
  | EmptyString => EmptyString
  end.

Definition trim (s : string) : string := trim_end (trim_start s).

(** [Array.prototype.includes] on an array of strings. *)
Definition includes (l : list string) (x : string) : bool :=
  existsb (String.eqb x) l.

(** [classList.add], [classList.remove], [classList.contains]. *)
Definition classList_add (c : string) (cs : list string) : list string :=
  if has_class c cs then cs else cs ++ [c].

Definition classList_remove (c : string) (cs : list string) : list string :=
  List.filter (fun x => negb (String.eqb x c)) cs.

(** ** Constants *)

Definition UPDATE_ALLOWED_COLUMNS : list string := ["backlog"; "todo"].

(** The one key of localStorage the script uses; the field [localStorage]
    of the state below is the parsed value stored under it, if any. *)
Definition STORAGE_KEY : string := "kanban_data".

(** ** Data *)

(** One entry of a persisted column: [{title, desc}]. *)
Record task := { title : string; desc : string }.

(** The object [data] of [saveData] / [loadData]: column id to array of
    tasks.  An association list in insertion order with one entry per key:
    [obj_set] is the assignment [data[k] = v], [obj_get] the read [data[k]],
    [obj_keys] is [Object.keys].  ([Object.keys] lists integer-like keys
    first; that only permutes the order in which columns are rebuilt.)
    [JSON.parse (JSON.stringify data)] is [data] itself. *)
Definition snapshot := list (string * list task).

Fixpoint obj_set (data : snapshot) (k : string) (v : list task) : snapshot :=
  match data with
  | [] => [(k, v)]
  | (k', v') :: rest =>
      if String.eqb k' k then (k', v) :: rest else (k', v') :: obj_set rest k v
  end.

Fixpoint obj_get (data : snapshot) (k : string) : option (list task) :=
  match data with
  | [] => None
  | (k', v') :: rest => if String.eqb k' k then Some v' else obj_get rest k
  end.

Definition obj_keys (data : snapshot) : list string := map fst data.

(** A card element: its class list, the [draggable] flag, its children, and
    how many times [attachDragEvents] has been called on it. *)
Record card := {
  classList : list string;
  draggable : bool;
  body : list node;
  drag_listeners : nat
}.

(** A column element: its [id], its class list, the text of the counter
    [.column-header span] ([None] when the header has no span), and its
    [.card] elements in document order, as references into the card store.
    The cards of a column are its children: the inside of a card is taken
    to hold no element of class [card], so that
    [column.querySelectorAll('.card')] is this list. *)
Record column := {
  col_id : string;
  col_classes : list string;
  count_span : option string;
  col_cards : list nat
}.

(** The modal: class list of [#modal-overlay], the values of [#task-title]
    and [#task-desc], the heading and the label of the submit button. *)
Record modal := {
  overlay_classes : list string;
  title_value : string;
  desc_value : string;
  modalTitle : string;
  modalSubmitBtn : string
}.

(** What the script can see and change: the NodeList [columns], the card
    elements ever created (a card keeps its place in the store when it
    leaves the document), the two global references, the modal, and the
    value stored under [STORAGE_KEY]. *)
Record state := {
  columns : list column;
  store : list card;
  draggedCard : option nat;
  editingCard : option nat;
  dialog : modal;
  localStorage : option snapshot
}.

Definition set_columns (f : list column -> list column) (s : state) : state :=
  {| columns := f (columns s); store := store s; draggedCard := draggedCard s;
     editingCard := editingCard s; dialog := dialog s; localStorage := localStorage s |}.

Definition set_store (f : list card -> list card) (s : state) : state :=
  {| columns := columns s; store := f (store s); draggedCard := draggedCard s;
     editingCard := editingCard s; dialog := dialog s; localStorage := localStorage s |}.

Definition set_draggedCard (d : option nat) (s : state) : state :=
  {| columns := columns s; store := store s; draggedCard := d;
     editingCard := editingCard s; dialog := dialog s; localStorage := localStorage s |}.

Definition set_editingCard (e : option nat) (s : state) : state :=
  {| columns := columns s; store := store s; draggedCard := draggedCard s;
     editingCard := e; dialog := dialog s; localStorage := localStorage s |}.

Definition set_dialog (f : modal -> modal) (s : state) : state :=
  {| columns := columns s; store := store s; draggedCard := draggedCard s;
     editingCard := editingCard s; dialog := f (dialog s); localStorage := localStorage s |}.

Definition set_localStorage (d : option snapshot) (s : state) : state :=
  {| columns := columns s; store := store s; draggedCard := draggedCard s;
     editingCard := editingCard s; dialog := dialog s; localStorage := d |}.

Definition with_cards (f : list nat -> list nat) (c : column) : column :=
  {| col_id := col_id c; col_classes := col_classes c;
     count_span := count_span c; col_cards := f (col_cards c) |}.

Definition with_col_classes (f : list string -> list string) (c : column) : column :=
  {| col_id := col_id c; col_classes := f (col_classes c);
     count_span := count_span c; col_cards := col_cards c |}.

Definition with_count (n : option string) (c : column) : column :=
  {| col_id := col_id c; col_classes := col_classes c;
     count_span := n; col_cards := col_cards c |}.

Definition with_body (f : list node -> list node) (k : card) : card :=
  {| classList := classList k; draggable := draggable k;
     body := f (body k); drag_listeners := drag_listeners k |}.

Definition with_classList (f : list string -> list string) (k : card) : card :=
  {| classList := f (classList k); draggable := draggable k;
     body := body k; drag_listeners := drag_listeners k |}.

Definition with_listener (k : card) : card :=
  {| classList := classList k; draggable := draggable k;
     body := body k; drag_listeners := S (drag_listeners k) |}.

(** In-place mutation of the column with index [i] of [columns], and of the
    card with reference [c]. *)
Definition on_column (i : nat) (f : column -> column) (s : state) : state :=
  set_columns (alter f i) s.

Definition on_card (c : nat) (f : card -> card) (s : state) : state :=
  set_store (alter f c) s.

(** An event handler either runs to its end or is cut short by an uncaught
    TypeError; what it had mutated by then stays mutated. *)
Inductive completion :=
| Normal (s : state)
| Abrupt (s : state).

Definition and_then (r : completion) (k : state -> completion) : completion :=
  match r with
  | Normal s => k s
  | Abrupt s => Abrupt s
  end.

Notation "r ;;; k" := (and_then r k) (at level 61, left associativity).

Definition final (r : completion) : state :=
  match r with
  | Normal s => s
  | Abrupt s => s
  end.

(** ** Reading the board *)

(** [card.querySelector(sel).textContent]; [None] is the TypeError of a
    missing element. *)
Definition read_text (sel : selector) (k : card) : option string :=
  option_map textContent (querySelector sel (body k)).

(** The object pushed for one card in [saveData]. *)
Definition card_task (st : list card) (c : nat) : option task :=
  k ← st !! c;
  t ← read_text (ByTag "h3") k;
  d ← read_text (ByTag "p") k;
  Some {| title := t; desc := d |}.

(** The loop of [saveData] over [columns], from the object built so far. *)
Fixpoint collect (st : list card) (cols : list column) (data : snapshot) : option snapshot :=
  match cols with
  | [] => Some data
  | column :: rest =>
      columnCards ← mapM (card_task st) (col_cards column);
      collect st rest (obj_set data (col_id column) columnCards)
  end.

Definition saveData (s : state) : completion :=
  match collect (store s) (columns s) [] with
  | Some data => Normal (set_localStorage (Some data) s)
  | None => Abrupt s
  end.

(** ** Counters and button visibility *)

(** The column after [updateCount]: the counter, if there is one, shows the
    number of cards. *)
Definition refreshed (c : column) : column :=
  match count_span c with
  | Some _ => with_count (Some (pretty (List.length (col_cards c)))) c
  | None => c
  end.

Definition updateCount (i : nat) (s : state) : state :=
  on_column i refreshed s.

Definition update_button : node := Elem "button" ["update"] [Text "Update"].

Definition is_some {A} (o : option A) : bool :=
  match o with Some _ => true | None => false end.

(** [updateBtn.remove()], seen from the action region [a] in which
    [updateBtn] is the first [.update]. *)
Definition without_update (a : node) : node :=
  match a with
  | Elem t cs ks => Elem t cs (with_first (ByClass "update") (fun _ => []) ks)
  | Text _ => a
  end.

(** [updateCardButtons(card, columnId)] on the children of [card]. *)
Definition updateCardButtons (b : list node) (columnId : string) : list node :=
  match querySelector (ByClass "card-actions") b with
  | None => b
  | Some actions =>
      let updateBtn := is_some (querySelector (ByClass "update") (kids_of actions)) in
      let needsUpdate := includes UPDATE_ALLOWED_COLUMNS columnId in
      let '(b, updateBtn) :=
        if needsUpdate && negb updateBtn
        then (with_first (ByClass "card-actions") (fun a => [prepend update_button a]) b, true)
        else (b, updateBtn) in
      if negb needsUpdate && updateBtn
      then with_first (ByClass "card-actions") (fun a => [without_update a]) b
      else b
  end.

(** ** Moving and removing cards *)

Definition remove_ref (c : nat) (l : list nat) : list nat :=
  List.filter (fun x => negb (Nat.eqb x c)) l.

(** [card.remove()]: the card leaves its parent. *)
Definition remove_card (c : nat) (s : state) : state :=
  set_columns (map (with_cards (remove_ref c))) s.

(** [column.appendChild(card)]: the card leaves its parent, if it has one,
    and becomes the last child of the column. *)
Definition appendChild (i c : nat) (s : state) : state :=
  on_column i (with_cards (fun l => l ++ [c])) (remove_card c s).

(** [card.parentElement], as an index into [columns]. *)
Fixpoint parent_from (i : nat) (cols : list column) (c : nat) : option nat :=
  match cols with
  | [] => None
  | column :: rest =>
      if existsb (Nat.eqb c) (col_cards column) then Some i
      else parent_from (S i) rest c
  end.

Definition parentElement (c : nat) (s : state) : option nat :=
  parent_from 0 (columns s) c.

(** [document.getElementById(id)] and [document.querySelector('#' + id)],
    among the columns: the first one with that id; no element has the
    empty id. *)
Fixpoint column_from (i : nat) (cols : list column) (id : string) : option nat :=
  match cols with
  | [] => None
  | column :: rest =>
      if String.eqb (col_id column) id then Some i
      else column_from (S i) rest id
  end.

Definition getElementById (id : string) (s : state) : option nat :=
  if String.eqb id "" then None else column_from 0 (columns s) id.

(** ** Modal helpers *)

(** Modelled from the spec: the markup of [#add-task-form] is not among the
    sources, so the default values that [addTaskForm.reset()] restores are
    taken from "opens a blank edit dialog": both fields end up empty. *)
Definition addTaskForm_reset (m : modal) : modal :=
  {| overlay_classes := overlay_classes m; title_value := ""; desc_value := "";
     modalTitle := modalTitle m; modalSubmitBtn := modalSubmitBtn m |}.

Definition with_overlay (f : list string -> list string) (m : modal) : modal :=
  {| overlay_classes := f (overlay_classes m); title_value := title_value m;
     desc_value := desc_value m; modalTitle := modalTitle m;
     modalSubmitBtn := modalSubmitBtn m |}.

Definition with_fields (t d : string) (m : modal) : modal :=
  {| overlay_classes := overlay_classes m; title_value := t; desc_value := d;
     modalTitle := modalTitle m; modalSubmitBtn := modalSubmitBtn m |}.

Definition with_title_value (t : string) (m : modal) : modal :=
  with_fields t (desc_value m) m.

Definition with_desc_value (d : string) (m : modal) : modal :=
  with_fields (title_value m) d m.

Definition with_labels (heading label : string) (m : modal) : modal :=
  {| overlay_classes := overlay_classes m; title_value := title_value m;
     desc_value := desc_value m; modalTitle := heading; modalSubmitBtn := label |}.

Definition openEditModal (c : nat) (s : state) : completion :=
  let s := set_editingCard (Some c) s in
  match store s !! c with
  | None => Abrupt s
  | Some k =>
      match read_text (ByTag "h3") k with
      | None => Abrupt s
      | Some t =>
          let s := set_dialog (with_title_value t) s in
          match read_text (ByTag "p") k with
          | None => Abrupt s
          | Some d =>
              let s := set_dialog (with_desc_value d) s in
              let s := set_dialog (with_labels "Edit Task" "Save Changes") s in
              Normal (set_dialog (with_overlay (classList_remove "hidden")) s)
          end
      end
  end.

Definition openAddModal (s : state) : state :=
  let s := set_editingCard None s in
  let s := set_dialog addTaskForm_reset s in
  let s := set_dialog (with_labels "Add New Task" "Add Task") s in
  set_dialog (with_overlay (classList_remove "hidden")) s.

Definition closeModal (s : state) : state :=
  let s := set_dialog (with_overlay (classList_add "hidden")) s in
  set_dialog addTaskForm_reset s.

(** ** Drag logic *)

Definition attachDragEvents (c : nat) (s : state) : state :=
  on_card c with_listener s.

(** The two listeners that one call of [attachDragEvents] registers. *)
Definition on_dragstart (c : nat) (s : state) : completion :=
  let s := set_draggedCard (Some c) s in
  Normal (on_card c (with_classList (classList_add "dragging")) s).

Definition on_dragend (c : nat) (s : state) : completion :=
  let s := set_draggedCard None s in
  let s := on_card c (with_classList (classList_remove "dragging")) s in
  saveData s.

(** An event on a card runs every registered listener in turn; an uncaught
    error in one listener does not stop the next. *)
Definition fire (c : nat) (listener : nat -> state -> completion) (s : state) : state :=
  match store s !! c with
  | Some k => Nat.iter (drag_listeners k) (fun s => final (listener c s)) s
  | None => s
  end.

(** ** Column events *)

Definition on_dragover (i : nat) (s : state) : state :=
  on_column i (with_col_classes (classList_add "drag-over")) s.

Definition on_dragleave (i : nat) (s : state) : state :=
  on_column i (with_col_classes (classList_remove "drag-over")) s.

Definition on_drop (i : nat) (s : state) : completion :=
  match columns s !! i with
  | None => Normal s
  | Some column =>
      let s := on_column i (with_col_classes (classList_remove "drag-over")) s in
      match draggedCard s with
      | None => Normal s
      | Some c =>
          let s := appendChild i c s in
          let s := on_card c (with_body (fun b => updateCardButtons b (col_id column))) s in
          let s := updateCount i s in
          saveData s
      end
  end.

(** ** Clicks on the buttons of a card (event delegation) *)

(** A click can only land on an element of a card that is in the document. *)
Definition clickable (sel : selector) (c : nat) (s : state) : bool :=
  match parentElement c s, store s !! c with
  | Some _, Some k => is_some (querySelector sel (body k))
  | _, _ => false
  end.

Definition on_click_update (c : nat) (s : state) : completion :=
  if clickable (ByClass "update") c s then openEditModal c s else Normal s.

(** [confirmed] is the answer of [confirm(...)]. *)
Definition on_click_delete (c : nat) (confirmed : bool) (s : state) : completion :=
  if clickable (ByClass "delete") c s then
    if confirmed then
      match parentElement c s with
      | Some column =>
          let s := remove_card c s in
          let s := updateCount column s in
          saveData s
      | None => Abrupt (remove_card c s)
      end
    else Normal s
  else Normal s.

(** ** The card template *)

(** The white space between the tags of the template literal: a line feed
    and [n] spaces. *)
Definition gap (n : nat) : node :=
  Text (String (ascii_of_nat 10) (string_of_list_ascii (repeat " "%char n))).

(** The action region of the template. *)
Definition template_actions : node :=
  Elem "div" ["card-actions"]
    [ gap 8; Elem "button" ["update"] [Text "Update"];
      gap 8; Elem "button" ["delete"] [Text "Delete"];
      gap 6 ].

(** The tree of the template of [createCardDOM] around given contents of
    its [h3] and [p]. *)
Definition card_tree (h3_kids p_kids : list node) : list node :=
  [ gap 6; Elem "h3" [] h3_kids;
    gap 6; Elem "p" [] p_kids;
    gap 6; template_actions;
    gap 4 ].

(** What the template is parsed to when title and description are text. *)
Definition card_template (title desc : string) : list node :=
  card_tree (text_nodes title) (text_nodes desc).

(** Text that the HTML parser reads as itself: no markup, no character
    reference, nothing the input preprocessing drops or rewrites. *)
Definition plain_char (a : ascii) : bool :=
  let n := nat_of_ascii a in
  negb (Nat.eqb n 60 || Nat.eqb n 38 || Nat.eqb n 0 || Nat.eqb n 13)%bool.

Fixpoint plain (s : string) : bool :=
  match s with
  | String a s' => plain_char a && plain s'
  | EmptyString => true
  end.

(** ** The script, over the HTML parser of the platform *)

Section Script.

(** [innerHTML title desc]: the child nodes a card gets when its
    [innerHTML] is set to the template literal of [createCardDOM] with
    [title] and [desc] spliced in.  The parser belongs to the browser; what
    is known of it is stated where it is used. *)
Variable innerHTML : string -> string -> list node.

Definition createCardDOM (title desc : string) (s : state) : nat * state :=
  let newCard := {| classList := ["card"]; draggable := true;
                    body := innerHTML title desc; drag_listeners := 0 |} in
  let c := List.length (store s) in
  (c, attachDragEvents c (set_store (fun st => st ++ [newCard]) s)).

(** One round of the inner loop of [loadData], for the column with index
    [column] and id [columnId]. *)
Definition load_card (column : nat) (columnId : string) (s : state) (cardData : task) : state :=
  let '(card, s) := createCardDOM (title cardData) (desc cardData) s in
  let s := appendChild column card s in
  on_card card (with_body (fun b => updateCardButtons b columnId)) s.

(** The body of the second loop of [loadData] for one key of [data]. *)
Definition rebuild (data : snapshot) (s : state) (columnId : string) : state :=
  match getElementById columnId s with
  | None => s
  | Some column =>
      let s := on_column column (with_cards (fun _ => [])) s in
      let s := fold_left (load_card column columnId) (default [] (obj_get data columnId)) s in
      updateCount column s
  end.

Definition loadData (s : state) : state :=
  match localStorage s with
  | None => s
  | Some data =>
      let s := set_columns (map (with_cards (fun _ => []))) s in
      fold_left (rebuild data) (obj_keys data) s
  end.

(** The listener of [DOMContentLoaded]. *)
Definition on_DOMContentLoaded (s : state) : state :=
  let s := loadData s in
  fold_left (fun s c => attachDragEvents c s) (List.concat (map col_cards (columns s))) s.

(** The listener of the form's [submit]. *)
Definition on_submit (s : state) : completion :=
  let title := trim (title_value (dialog s)) in
  let desc := trim (desc_value (dialog s)) in
  if String.eqb title "" then Normal s
  else
    (match editingCard s with
     | Some c =>
         match store s !! c with
         | None => Abrupt s
         | Some k =>
             match querySelector (ByTag "h3") (body k) with
             | None => Abrupt s
             | Some _ =>
                 let s := on_card c (with_body (with_first (ByTag "h3")
                                       (fun e => [set_textContent title e]))) s in
                 match (k' ← store s !! c; querySelector (ByTag "p") (body k')) with
                 | None => Abrupt s
                 | Some _ =>
                     Normal (on_card c (with_body (with_first (ByTag "p")
                                          (fun e => [set_textContent desc e]))) s)
                 end
             end
         end
     | None =>
         let '(newCard, s) := createCardDOM title desc s in
         match getElementById "todo" s with
         | None => Abrupt s
         | Some todo => Normal (appendChild todo newCard s)
         end
     end) ;;; fun s =>
    let s := fold_left (fun s col => updateCount col s) (seq 0 (List.length (columns s))) s in
    saveData s ;;; fun s =>
    Normal (closeModal s).

(** ** Events *)

Inductive event :=
| DOMContentLoaded
| DragStart (card : nat)
| DragEnd (card : nat)
| DragOver (column : nat)
| DragLeave (column : nat)
| Drop (column : nat)
| ClickUpdate (card : nat)
| ClickDelete (card : nat) (confirmed : bool)
| ClickAddTask
| ClickCancel
| ClickOverlay
| Input (title desc : string)
| Submit.

Definition dispatch (e : event) (s : state) : state :=
  match e with
  | DOMContentLoaded => on_DOMContentLoaded s
  | DragStart c => fire c on_dragstart s
  | DragEnd c => fire c on_dragend s
  | DragOver i => on_dragover i s
  | DragLeave i => on_dragleave i s
  | Drop i => final (on_drop i s)
  | ClickUpdate c => final (on_click_update c s)
  | ClickDelete c confirmed => final (on_click_delete c confirmed s)
  | ClickAddTask => openAddModal s
  | ClickCancel => closeModal s
  | ClickOverlay => closeModal s
  | Input t d => set_dialog (with_fields t d) s
  | Submit => final (on_submit s)
  end.

Definition run (es : list event) (s : state) : state :=
  fold_left (fun s e => dispatch e s) es s.

End Script.

(** ** What the parser is known to do *)

(** Plain text spliced into the template is parsed to the template tree. *)
Definition parses_plain (innerHTML : string -> string -> list node) : Prop :=
  forall t d, plain t = true -> plain d = true -> innerHTML t d = card_template t d.

(** The title and description of every task the parser is run on while
    [e] is handled in [s]. *)
Definition parsed_by (e : event) (s : state) : list (string * string) :=
  match e with
  | DOMContentLoaded =>
      match localStorage s with
      | Some data =>
          map (fun cardData => (title cardData, desc cardData)) (List.concat (map snd data))
      | None => []
      end
  | Submit =>
      let title := trim (title_value (dialog s)) in
      let desc := trim (desc_value (dialog s)) in
      if String.eqb title "" then []
      else match editingCard s with
           | Some _ => []
           | None => [(title, desc)]
           end
  | _ => []
  end.

Definition agree_on (f g : string -> string -> list node) (l : list (string * string)) : Prop :=
  Forall (fun td => f (fst td) (snd td) = g (fst td) (snd td)) l.

(** The same along a run, with the states of the run under [g]. *)
Fixpoint agree_along (f g : string -> string -> list node) (es : list event) (s : state) : Prop :=
  match es with
  | [] => True
  | e :: es' => agree_on f g (parsed_by e s) /\ agree_along f g es' (dispatch g e s)
  end.

(** ** The board as tasks *)

(** The tasks of a column as [saveData] would read them. *)
Definition column_tasks (s : state) (column : column) : option (list task) :=
  mapM (card_task (store s)) (col_cards column).

(** Whether a card carries an update affordance: an element that the click
    listener takes for the update button, [closest('.update')]. *)
Definition has_update (k : card) : bool :=
  is_some (querySelector (ByClass "update") (body k)).

(** ** Sample pages *)

(** Two titles with markup: a character reference and an element. *)
Definition amp_title : string := "&amp;".
Definition button_title : string := "<button class='update'>E</button>".

(** A parser table: the template tree for text, and what the HTML standard
    prescribes for the two titles above (next to a plain description). *)
Definition sample_innerHTML (t d : string) : list node :=
  if String.eqb t amp_title then card_tree [Text "&"] (text_nodes d)
  else if String.eqb t button_title
       then card_tree [Elem "button" ["update"] [Text "E"]] (text_nodes d)
       else card_template t d.

Definition empty_column (id : string) : column :=
  {| col_id := id; col_classes := ["column"]; count_span := Some "0"; col_cards := [] |}.

Definition closed_dialog : modal :=
  {| overlay_classes := ["modal-overlay"; "hidden"]; title_value := ""; desc_value := "";
     modalTitle := "Add New Task"; modalSubmitBtn := "Add Task" |}.

(** A page with three empty columns and nothing stored. *)
Definition empty_page : state :=
  {| columns := [empty_column "todo"; empty_column "in-progress"; empty_column "done"];
     store := []; draggedCard := None; editingCard := None;
     dialog := closed_dialog; localStorage := None |}.

(** The user adds the task A/x. *)
Definition add_A : list event :=
  [DOMContentLoaded; ClickAddTask; Input "A" "x"; Submit].

Definition page_A : state := run sample_innerHTML add_A empty_page.

(** A card whose action region holds two update buttons. *)
Definition two_updates : list node :=
  [ Elem "h3" [] [Text "A"]; Elem "p" [] [Text "x"];
    Elem "div" ["card-actions"]
      [ Elem "button" ["update"] [Text "Update"];
        Elem "button" ["update"] [Text "Update"];
        Elem "button" ["delete"] [Text "Delete"] ] ].


(** The action region of a card holds at most one update button. *)
Definition at_most_one_update (b : list node) : bool :=
  match querySelector (ByClass "card-actions") b with
  | Some actions => Nat.leb (count_in (ByClass "update") (kids_of actions)) 1
  | None => true
  end.

(** The update button of the action region is there exactly when the
    policy of the column asks for it. *)
Definition matches_policy (b : list node) (columnId : string) : bool :=
  match querySelector (ByClass "card-actions") b with
  | Some actions =>
      Bool.eqb (is_some (querySelector (ByClass "update") (kids_of actions)))
               (includes UPDATE_ALLOWED_COLUMNS columnId)
  | None => true
  end.

(** The card that [createCardDOM] returns. *)
Definition built_card (innerHTML : string -> string -> list node)
    (title desc : string) (s : state) : option card :=
  let '(c, s') := createCardDOM innerHTML title desc s in store s' !! c.

(** The user has opened the edit dialog of task A and typed into it. *)
Definition editing_page : state :=
  run sample_innerHTML [ClickUpdate 0; Input "B" "y"] page_A.

(** The add dialog with only white space typed into the title. *)
Definition blank_title_page : state :=
  run sample_innerHTML [ClickAddTask; Input "   " "y"] page_A.

(** Tasks A (in todo) and B (dragged to done) are on the board, and the
    stored snapshot only has an entry for todo. *)
Definition add_B_done : list event :=
  [ClickAddTask; Input "B" "y"; Submit; DragStart 1; Drop 2; DragEnd 1].

Definition partial_page : state :=
  set_localStorage (Some [("todo", [{| title := "A"; desc := "x" |}])])
    (run sample_innerHTML add_B_done page_A).

(** The user has replaced the title of task A by the text [&amp;]. *)
Definition retitle_amp : list event :=
  [ClickUpdate 0; Input amp_title "x"; Submit].

(** Task A is dragged from todo to done. *)
Definition drag_A_done : list event := [DragStart 0; Drop 2; DragEnd 0].

(** The user adds a task whose title is the markup of an update button and
    drags it to done. *)
Definition add_button_done : list event :=
  [DOMContentLoaded; ClickAddTask; Input button_title ""; Submit;
   DragStart 0; Drop 2; DragEnd 0].

(** A task whose title and description are plain text. *)
Definition plain_task (x : task) : bool := plain (title x) && plain (desc x).

(** A layout whose columns have distinct, non-empty ids. *)
Definition layout_ok (s : state) : Prop :=
  NoDup (map col_id (columns s)) /\ ~ In "" (map col_id (columns s)).

(** Every card reference on the board points into the card store. *)
Definition refs_valid (s : state) : Prop :=
  forall column c, In column (columns s) -> In c (col_cards column) -> c < List.length (store s).

(** The card that [loadData] puts into column [columnId] for a stored task. *)
Definition loaded_card (innerHTML : string -> string -> list node)
    (columnId : string) (x : task) : card :=
  {| classList := ["card"]; draggable := true;
     body := updateCardButtons (innerHTML (title x) (desc x)) columnId;
     drag_listeners := 1 |}.



(** ** Cards as the script keeps them *)

Definition delete_button : node := Elem "button" ["delete"] [Text "Delete"].

(** The three states of the action region of a card that was built from the
    template: as in the template, with the update button removed, and with an
    update button put back in front. *)
Inductive region := Template | Without | Prepended.

Definition region_kids (r : region) : list node :=
  match r with
  | Template => [gap 8; update_button; gap 8; delete_button; gap 6]
  | Without => [gap 8; gap 8; delete_button; gap 6]
  | Prepended => [update_button; gap 8; gap 8; delete_button; gap 6]
  end.

(** The template around given contents of its three regions. *)
Definition card_layout (h3_kids p_kids actions_kids : list node) : list node :=
  [ gap 6; Elem "h3" [] h3_kids;
    gap 6; Elem "p" [] p_kids;
    gap 6; Elem "div" ["card-actions"] actions_kids;
    gap 4 ].

(** The action region after [updateCardButtons] for a column id. *)
Definition fit (r : region) (columnId : string) : region :=
  if includes UPDATE_ALLOWED_COLUMNS columnId
  then match r with Without => Prepended | _ => r end
  else Without.

(** A card as the script builds and maintains it from plain text. *)
Definition kept (k : card) : Prop :=
  exists t d r,
    body k = card_layout (text_nodes t) (text_nodes d) (region_kids r) /\
    plain t = true /\ plain d = true.

(** The policy of section "button visibility" on the board: a card in a
    column outside the allow-list carries no update affordance. *)
Definition policy_holds (s : state) : Prop :=
  forall column c, In column (columns s) -> In c (col_cards column) ->
    includes UPDATE_ALLOWED_COLUMNS (col_id column) = false ->
    (has_update <$> store s !! c) = Some false.

(** The invariant of the script on plain text. *)
Definition cards_kept (s : state) : Prop :=
  forall c k, store s !! c = Some k -> kept k.

Definition board_ok (s : state) : Prop :=
  refs_valid s /\ policy_holds s.

Definition drag_ok (s : state) : Prop :=
  forall c, draggedCard s = Some c -> c < List.length (store s).

Definition fields_ok (s : state) : Prop :=
  plain (title_value (dialog s)) = true /\ plain (desc_value (dialog s)) = true.

Definition storage_ok (s : state) : Prop :=
  forall data, localStorage s = Some data ->
    Forall (fun x => plain_task x = true) (List.concat (map snd data)).

Definition tidy (s : state) : Prop :=
  cards_kept s /\ board_ok s /\ drag_ok s /\ fields_ok s /\ storage_ok s.

(** Events whose typed text is plain. *)
Definition plain_event (e : event) : bool :=
  match e with
  | Input t d => plain t && plain d
  | _ => true
  end.

(** ** More sample pages *)

(** Task A is being dragged. *)
Definition dragging_A : state := run sample_innerHTML [DragStart 0] page_A.

(** The events whose listener ends in a call of [saveData]. *)
Definition saves (e : event) : bool :=
  match e with
  | DragEnd _ | Drop _ | ClickDelete _ true | Submit => true
  | _ => false
  end.


(** The events that assign [editingCard], and those that assign
    [draggedCard]. *)
Definition retargets (e : event) : bool :=
  match e with
  | ClickUpdate _ | ClickAddTask => true
  | _ => false
  end.

Definition drags (e : event) : bool :=
  match e with
  | DragStart _ | DragEnd _ => true
  | _ => false
  end.

(** The cards of the board, [document.querySelectorAll('.card')]. *)
Definition board_cards (s : state) : list nat :=
  List.concat (map col_cards (columns s)).

(** While [loadData] rebuilds the board: every card of the board is in one
    place only and carries the one pair of drag listeners it got from
    [createCardDOM]. *)
Definition freshly_built (s : state) : Prop :=
  refs_valid s /\ NoDup (board_cards s) /\
  forall c, In c (board_cards s) -> (drag_listeners <$> store s !! c) = Some 1.




(** The card of task A as [createCardDOM] leaves it. *)
Definition card_A : card :=
  {| classList := ["card"]; draggable := true;
     body := card_template "A" "x"; drag_listeners := 1 |}.

(** A page that comes with one card in its markup and nothing stored. *)
Definition static_page : state :=
  {| columns := [{| col_id := "todo"; col_classes := ["column"];
                    count_span := Some "1"; col_cards := [0] |};
                 empty_column "done"];
     store := [{| classList := ["card"]; draggable := true;
                  body := card_template "A" "x"; drag_listeners := 0 |}];
     draggedCard := None; editingCard := None;
     dialog := closed_dialog; localStorage := None |}.
(** * Facts about the document tree *)

Module DomFacts.

Lemma node_forall_ind (P : node -> Prop) :
  (forall s, P (Text s)) ->
  (forall t cs ks, Forall P ks -> P (Elem t cs ks)) ->
  forall n, P n.
Proof.
  intros HT HE.
  fix IH 1.
  intros [s | t cs ks].
  - apply HT.
  - apply HE.
    induction ks as [| k ks IHks].
    + constructor.
    + constructor; [apply IH | exact IHks].
Qed.

Lemma matches_kids sel t cs ks ks' :
  matches sel (Elem t cs ks) = matches sel (Elem t cs ks').
Proof. destruct sel; reflexivity. Qed.

Lemma count_in_cons sel k ks :
  count_in sel (k :: ks) = count sel k + count_in sel ks.
Proof. reflexivity. Qed.

Lemma count_in_app sel ks1 ks2 :
  count_in sel (ks1 ++ ks2) = count_in sel ks1 + count_in sel ks2.
Proof.
  induction ks1 as [| k ks1 IH]; [reflexivity |].
  rewrite <- app_comm_cons, !count_in_cons, IH. lia.
Qed.

Lemma count_elem sel t cs ks :
  count sel (Elem t cs ks) =
  (if matches sel (Elem t cs ks) then 1 else 0) + count_in sel ks.
Proof. reflexivity. Qed.

Lemma querySelector_cons sel k ks :
  querySelector sel (k :: ks) =
  match find sel k with Some r => Some r | None => querySelector sel ks end.
Proof. reflexivity. Qed.

Lemma find_elem sel t cs ks :
  find sel (Elem t cs ks) =
  if matches sel (Elem t cs ks) then Some (Elem t cs ks) else querySelector sel ks.
Proof. reflexivity. Qed.

Lemma edit_elem sel f t cs ks :
  edit sel f (Elem t cs ks) =
  if matches sel (Elem t cs ks) then Some (f (Elem t cs ks))
  else option_map (fun ks' => [Elem t cs ks']) (rewrite_first (edit sel f) ks).
Proof. reflexivity. Qed.

Lemma rewrite_first_cons {A} (g : A -> option (list A)) x l :
  rewrite_first g (x :: l) =
  match g x with
  | Some r => Some (r ++ l)
  | None => option_map (cons x) (rewrite_first g l)
  end.
Proof. reflexivity. Qed.

(** What [find] returns matches the selector. *)
Lemma find_matches sel n e : find sel n = Some e -> matches sel e = true.
Proof.
  revert e. induction n as [s | t cs ks IH] using node_forall_ind; intros e.
  - destruct sel; discriminate.
  - rewrite find_elem. destruct (matches sel (Elem t cs ks)) eqn:Hm.
    + intros [= <-]. exact Hm.
    + clear Hm. induction IH as [| k ks Hk _ IHks]; [discriminate |].
      rewrite querySelector_cons. destruct (find sel k) eqn:Hf.
      * intros [= <-]. auto.
      * exact IHks.
Qed.

Lemma querySelector_matches sel ks e :
  querySelector sel ks = Some e -> matches sel e = true.
Proof.
  induction ks as [| k ks IH]; [discriminate |].
  rewrite querySelector_cons. destruct (find sel k) eqn:Hf.
  - intros [= <-]. eapply find_matches; eauto.
  - exact IH.
Qed.

(** Nothing is found exactly when nothing matches. *)
Lemma find_none_count sel n : find sel n = None <-> count sel n = 0.
Proof.
  induction n as [s | t cs ks IH] using node_forall_ind.
  - destruct sel; cbn; split; auto.
  - rewrite find_elem, count_elem. destruct (matches sel (Elem t cs ks)).
    + split; [discriminate | lia].
    + cbn [Nat.add]. induction IH as [| k ks Hk _ IHks]; [split; auto |].
      rewrite querySelector_cons, count_in_cons. destruct (find sel k) eqn:Hf.
      * split; [discriminate |]. intros H.
        assert (count sel k = 0) as H0 by lia.
        apply Hk in H0. discriminate.
      * assert (count sel k = 0) as -> by (apply Hk; reflexivity).
        exact IHks.
Qed.

Lemma querySelector_none_count sel ks :
  querySelector sel ks = None <-> count_in sel ks = 0.
Proof.
  induction ks as [| k ks IH]; [split; auto |].
  rewrite querySelector_cons, count_in_cons. destruct (find sel k) eqn:Hf.
  - split; [discriminate |]. intros H.
    assert (count sel k = 0) as H0 by lia.
    apply find_none_count in H0. congruence.
  - apply find_none_count in Hf. rewrite Hf. exact IH.
Qed.

(** [edit] hits exactly when [find] does. *)
Lemma edit_none sel f n : find sel n = None -> edit sel f n = None.
Proof.
  induction n as [s | t cs ks IH] using node_forall_ind.
  - destruct sel; reflexivity.
  - rewrite find_elem, edit_elem. destruct (matches sel (Elem t cs ks)); [discriminate |].
    induction IH as [| k ks Hk _ IHks]; [reflexivity |].
    rewrite querySelector_cons, rewrite_first_cons. destruct (find sel k) eqn:Hf; [discriminate |].
    intros Hq. rewrite (Hk eq_refl).
    specialize (IHks Hq). destruct (rewrite_first (edit sel f) ks); [discriminate | reflexivity].
Qed.

Lemma edit_some sel f n : find sel n <> None -> edit sel f n <> None.
Proof.
  induction n as [s | t cs ks IH] using node_forall_ind.
  - destruct sel; auto.
  - rewrite find_elem, edit_elem. destruct (matches sel (Elem t cs ks)); [discriminate |].
    induction IH as [| k ks Hk _ IHks]; [auto |].
    rewrite querySelector_cons, rewrite_first_cons. destruct (find sel k) eqn:Hf.
    + intros _. destruct (edit sel f k); [discriminate |]. exfalso. apply Hk; congruence.
    + intros Hq. rewrite (edit_none _ _ _ Hf).
      specialize (IHks Hq). destruct (rewrite_first (edit sel f) ks); [discriminate | auto].
Qed.

Lemma with_first_none sel f ks :
  querySelector sel ks = None -> with_first sel f ks = ks.
Proof.
  unfold with_first. intros Hq.
  assert (rewrite_first (edit sel f) ks = None) as ->; [| reflexivity].
  induction ks as [| k ks IH]; [reflexivity |].
  rewrite querySelector_cons in Hq. rewrite rewrite_first_cons.
  destruct (find sel k) eqn:Hf; [discriminate |].
  rewrite (edit_none _ _ _ Hf), (IH Hq). reflexivity.
Qed.

(** Mutating the first hit into an element that still matches leaves it the
    first hit. *)
Lemma edit_in_place sel g n e :
  (forall x, matches sel x = true -> matches sel (g x) = true) ->
  find sel n = Some e ->
  exists n', edit sel (fun x => [g x]) n = Some [n'] /\ find sel n' = Some (g e).
Proof.
  intros Hg. revert e. induction n as [s | t cs ks IH] using node_forall_ind; intros e.
  - destruct sel; discriminate.
  - rewrite find_elem, edit_elem. destruct (matches sel (Elem t cs ks)) eqn:Hm.
    + intros [= <-]. eexists. split; [reflexivity |].
      specialize (Hg _ Hm). destruct (g (Elem t cs ks)) as [s' | t' cs' ks'] eqn:Hge.
      * destruct sel; discriminate.
      * rewrite find_elem, Hg. reflexivity.
    + intros Hq.
      assert (exists ks', rewrite_first (edit sel (fun x => [g x])) ks = Some ks' /\
                          querySelector sel ks' = Some (g e)) as (ks' & Hr & Hq').
      { clear Hm. induction IH as [| k ks Hk _ IHks]; [discriminate |].
        rewrite querySelector_cons in Hq. rewrite rewrite_first_cons.
        destruct (find sel k) eqn:Hf.
        - injection Hq as ->. destruct (Hk _ eq_refl) as (k' & -> & Hf').
          eexists. split; [reflexivity |].
          cbn [app]. rewrite querySelector_cons, Hf'. reflexivity.
        - rewrite (edit_none _ _ _ Hf). destruct (IHks Hq) as (ks' & -> & Hq').
          eexists. split; [reflexivity |].
          rewrite querySelector_cons, Hf. exact Hq'. }
      rewrite Hr. eexists. split; [reflexivity |].
      rewrite find_elem, (matches_kids sel t cs ks' ks), Hm. exact Hq'.
Qed.

Lemma with_first_in_place sel g ks e :
  (forall x, matches sel x = true -> matches sel (g x) = true) ->
  querySelector sel ks = Some e ->
  querySelector sel (with_first sel (fun x => [g x]) ks) = Some (g e).
Proof.
  intros Hg. unfold with_first. revert e.
  induction ks as [| k ks IH]; intros e; [discriminate |].
  rewrite querySelector_cons, rewrite_first_cons. destruct (find sel k) eqn:Hf.
  - intros [= <-]. destruct (edit_in_place _ _ _ _ Hg Hf) as (k' & -> & Hf').
    cbn [app]. rewrite querySelector_cons, Hf'. reflexivity.
  - intros Hq. rewrite (edit_none _ _ _ Hf).
    specialize (IH _ Hq). destruct (rewrite_first _ ks) as [ks' |]; cbn [option_map].
    + rewrite querySelector_cons, Hf. exact IH.
    + rewrite querySelector_cons, Hf. exact IH.
Qed.

(** Removing the first hit removes at least one match. *)
Lemma edit_remove_count sel n ks' :
  edit sel (fun _ => []) n = Some ks' -> count_in sel ks' < count sel n.
Proof.
  revert ks'. induction n as [s | t cs ks IH] using node_forall_ind; intros ks'.
  - destruct sel; discriminate.
  - rewrite edit_elem, count_elem. destruct (matches sel (Elem t cs ks)) eqn:Hm.
    + intros [= <-]. cbn. lia.
    + cbn [Nat.add].
      destruct (rewrite_first (edit sel (fun _ => [])) ks) as [ks1 |] eqn:Hr; [| discriminate].
      intros [= <-].
      assert (count_in sel ks1 < count_in sel ks) as Hlt.
      { clear Hm. revert ks1 Hr. induction IH as [| k ks Hk _ IHks]; intros ks1; [discriminate |].
        rewrite rewrite_first_cons, count_in_cons.
        destruct (edit sel (fun _ => []) k) as [r |] eqn:He.
        - intros [= <-]. rewrite count_in_app. specialize (Hk _ eq_refl). lia.
        - destruct (rewrite_first _ ks) as [ks2 |]; [| discriminate].
          intros [= <-]. rewrite count_in_cons. specialize (IHks _ eq_refl). lia. }
      rewrite count_in_cons, count_elem, (matches_kids sel t cs ks1 ks), Hm.
      change (count_in sel []) with 0. lia.
Qed.

Lemma with_first_remove_count sel ks :
  querySelector sel ks <> None ->
  count_in sel (with_first sel (fun _ => []) ks) < count_in sel ks.
Proof.
  unfold with_first.
  induction ks as [| k ks IH]; [intros H; exfalso; apply H; reflexivity |].
  rewrite querySelector_cons, rewrite_first_cons, count_in_cons.
  destruct (find sel k) eqn:Hf.
  - intros _. destruct (edit sel (fun _ => []) k) as [r |] eqn:He.
    + rewrite count_in_app. pose proof (edit_remove_count _ _ _ He). lia.
    + exfalso. apply (edit_some sel (fun _ => []) k); [rewrite Hf; discriminate | exact He].
  - intros Hq. rewrite (edit_none _ _ _ Hf). specialize (IH Hq).
    destruct (rewrite_first _ ks) as [ks' |]; cbn [option_map].
    + rewrite count_in_cons. lia.
    + lia.
Qed.

(** Text nodes hold no element. *)
Lemma querySelector_text_nodes sel s : querySelector sel (text_nodes s) = None.
Proof. unfold text_nodes. destruct (String.eqb s ""); destruct sel; reflexivity. Qed.

Lemma count_in_text_nodes sel s : count_in sel (text_nodes s) = 0.
Proof. apply querySelector_none_count, querySelector_text_nodes. Qed.

Lemma textContent_text_nodes t cs s : textContent (Elem t cs (text_nodes s)) = s.
Proof.
  unfold text_nodes. destruct (String.eqb_spec s "") as [-> | _]; reflexivity.
Qed.

End DomFacts.

Import DomFacts.

(** * The modal *)

Lemma has_class_add c cs : has_class c (classList_add c cs) = true.
Proof.
  unfold classList_add. destruct (has_class c cs) eqn:H; [exact H |].
  unfold has_class. rewrite existsb_app. cbn. rewrite String.eqb_refl.
  apply orb_true_iff. right. reflexivity.
Qed.

(** C6: a delete click whose confirmation is declined changes nothing: the
    card stays in its column, the counters keep their text, and
    localStorage is not written (the whole state is the one before). *)
Theorem delete_declined_changes_nothing innerHTML c s :
  let s' := dispatch innerHTML (ClickDelete c false) s in
  s' = s /\
  columns s' = columns s /\ store s' = store s /\ localStorage s' = localStorage s.
Proof.
  assert (dispatch innerHTML (ClickDelete c false) s = s) as H.
  { cbn. unfold on_click_delete. destruct (clickable _ c s); reflexivity. }
  cbn zeta. rewrite H. auto.
Qed.

(** C7: a submit whose title is empty after trimming is ignored: no card is
    created or changed, localStorage is not written, and the dialog stays as
    it is, open if it was open (the whole state is the one before). *)
Theorem empty_title_submit_ignored innerHTML s :
  trim (title_value (dialog s)) = "" ->
  let s' := dispatch innerHTML Submit s in
  s' = s /\
  columns s' = columns s /\ store s' = store s /\ localStorage s' = localStorage s /\
  has_class "hidden" (overlay_classes (dialog s')) = has_class "hidden" (overlay_classes (dialog s)).
Proof.
  intros Ht.
  assert (dispatch innerHTML Submit s = s) as H.
  { cbn. unfold on_submit. rewrite Ht. reflexivity. }
  cbn zeta. rewrite H. auto 6.
Qed.

Lemma empty_title_submit_ignored_witness :
  trim (title_value (dialog blank_title_page)) = "" /\
  has_class "hidden" (overlay_classes (dialog blank_title_page)) = false /\
  dispatch sample_innerHTML Submit blank_title_page = blank_title_page.
Proof.
  split; [reflexivity |]. split; [reflexivity |].
  apply (empty_title_submit_ignored sample_innerHTML blank_title_page). reflexivity.
Defined.

(** C4 as stated fails: after cancelling (or clicking the backdrop of) the
    edit dialog of card 0, [editingCard] still refers to card 0. *)
Lemma dismissal_keeps_edit_target :
  editingCard editing_page = Some 0 /\
  editingCard (dispatch sample_innerHTML ClickCancel editing_page) = Some 0 /\
  editingCard (dispatch sample_innerHTML ClickOverlay editing_page) = Some 0.
Proof. repeat match goal with |- _ /\ _ => split end; vm_compute; reflexivity. Qed.

(** C4, amended: dismissing the dialog (cancel button or backdrop) hides it
    and resets both fields without asking; [editingCard] is left as it was,
    and so are the board, the drag state and localStorage. *)
Theorem dismissal_resets_form innerHTML s :
  dispatch innerHTML ClickCancel s = closeModal s /\
  dispatch innerHTML ClickOverlay s = closeModal s /\
  title_value (dialog (closeModal s)) = "" /\
  desc_value (dialog (closeModal s)) = "" /\
  has_class "hidden" (overlay_classes (dialog (closeModal s))) = true /\
  editingCard (closeModal s) = editingCard s /\
  columns (closeModal s) = columns s /\ store (closeModal s) = store s /\
  draggedCard (closeModal s) = draggedCard s /\
  localStorage (closeModal s) = localStorage s.
Proof.
  repeat split; try reflexivity.
  exact (has_class_add "hidden" (overlay_classes (dialog s))).
Qed.

(** The edit target is reset by the next opening of the add dialog. *)
Lemma openAddModal_clears_target s : editingCard (openAddModal s) = None.
Proof. reflexivity. Qed.

(** * The card factory *)

Lemma tree_h3 h3_kids p_kids :
  querySelector (ByTag "h3") (card_tree h3_kids p_kids) = Some (Elem "h3" [] h3_kids).
Proof. reflexivity. Qed.

Lemma tree_p h3_kids p_kids :
  querySelector (ByTag "p") h3_kids = None ->
  querySelector (ByTag "p") (card_tree h3_kids p_kids) = Some (Elem "p" [] p_kids).
Proof.
  intros H. unfold card_tree.
  rewrite !querySelector_cons, !find_elem, H. reflexivity.
Qed.

Lemma tree_actions h3_kids p_kids :
  querySelector (ByClass "card-actions") h3_kids = None ->
  querySelector (ByClass "card-actions") p_kids = None ->
  querySelector (ByClass "card-actions") (card_tree h3_kids p_kids) = Some template_actions.
Proof.
  intros H1 H2. unfold card_tree.
  rewrite !querySelector_cons, !find_elem, H1, H2. reflexivity.
Qed.

Lemma template_h3 t d :
  querySelector (ByTag "h3") (card_template t d) = Some (Elem "h3" [] (text_nodes t)).
Proof. reflexivity. Qed.

Lemma template_p t d :
  querySelector (ByTag "p") (card_template t d) = Some (Elem "p" [] (text_nodes d)).
Proof. apply tree_p, querySelector_text_nodes. Qed.

Lemma template_card_actions t d :
  querySelector (ByClass "card-actions") (card_template t d) = Some template_actions.
Proof. apply tree_actions; apply querySelector_text_nodes. Qed.

Lemma createCardDOM_store innerHTML t d s :
  built_card innerHTML t d s =
  Some {| classList := ["card"]; draggable := true; body := innerHTML t d; drag_listeners := 1 |}.
Proof.
  unfold built_card, createCardDOM, attachDragEvents, on_card, set_store. cbn [store].
  rewrite list_lookup_alter_eq, lookup_app_r by lia.
  rewrite Nat.sub_diag. reflexivity.
Qed.

(** C5 as stated fails: the card that [createCardDOM] builds for task A/x
    carries the update button, whatever the column it is built for; for the
    column [done] the policy does not grant one. *)
Lemma createCardDOM_update_without_policy :
  (has_update <$> built_card sample_innerHTML "A" "x" empty_page) = Some true /\
  includes UPDATE_ALLOWED_COLUMNS "done" = false.
Proof. split; reflexivity. Qed.

(** C5, amended: for a title and a description that are plain text, the card
    built by [createCardDOM] has a title region and a description region
    showing them, and an action region that holds both a delete and an
    update button, unconditionally; it is draggable and has its drag
    listeners attached.  (Fitting the update button to the column is left to
    [updateCardButtons].) *)
Theorem createCardDOM_regions innerHTML t d s :
  parses_plain innerHTML -> plain t = true -> plain d = true ->
  exists k actions,
    built_card innerHTML t d s = Some k /\
    read_text (ByTag "h3") k = Some t /\
    read_text (ByTag "p") k = Some d /\
    querySelector (ByClass "card-actions") (body k) = Some actions /\
    is_some (querySelector (ByClass "delete") (kids_of actions)) = true /\
    is_some (querySelector (ByClass "update") (kids_of actions)) = true /\
    draggable k = true /\ drag_listeners k = 1.
Proof.
  intros Hp Ht Hd. rewrite createCardDOM_store, (Hp t d Ht Hd).
  eexists. exists template_actions. split; [reflexivity |].
  unfold read_text. cbn [body].
  rewrite template_h3, template_p, template_card_actions.
  cbn [option_map]. rewrite !textContent_text_nodes.
  repeat split; reflexivity.
Qed.

(** * Button visibility *)

Lemma matches_actions_elem a :
  matches (ByClass "card-actions") a = true -> exists t cs ks, a = Elem t cs ks.
Proof. destruct a as [s | t cs ks]; [discriminate | eauto]. Qed.

(** What [updateCardButtons] does, by cases on the policy and on the button
    found in the action region. *)
Lemma updateCardButtons_no_actions b columnId :
  querySelector (ByClass "card-actions") b = None -> updateCardButtons b columnId = b.
Proof. unfold updateCardButtons. intros ->. reflexivity. Qed.

Lemma updateCardButtons_settled b columnId actions :
  querySelector (ByClass "card-actions") b = Some actions ->
  is_some (querySelector (ByClass "update") (kids_of actions)) =
    includes UPDATE_ALLOWED_COLUMNS columnId ->
  updateCardButtons b columnId = b.
Proof.
  unfold updateCardButtons. intros -> ->.
  destruct (includes UPDATE_ALLOWED_COLUMNS columnId); reflexivity.
Qed.

Lemma updateCardButtons_adds b columnId actions :
  querySelector (ByClass "card-actions") b = Some actions ->
  querySelector (ByClass "update") (kids_of actions) = None ->
  includes UPDATE_ALLOWED_COLUMNS columnId = true ->
  updateCardButtons b columnId =
  with_first (ByClass "card-actions") (fun a => [prepend update_button a]) b.
Proof. unfold updateCardButtons. intros -> -> ->. reflexivity. Qed.

Lemma updateCardButtons_removes b columnId actions :
  querySelector (ByClass "card-actions") b = Some actions ->
  querySelector (ByClass "update") (kids_of actions) <> None ->
  includes UPDATE_ALLOWED_COLUMNS columnId = false ->
  updateCardButtons b columnId =
  with_first (ByClass "card-actions") (fun a => [without_update a]) b.
Proof.
  unfold updateCardButtons. intros -> Hu ->.
  destruct (querySelector (ByClass "update") (kids_of actions)); [| congruence].
  reflexivity.
Qed.

(** C8 as stated fails: on a card whose action region holds two update
    buttons, in a column without the update affordance, each application
    removes one button, so the second application changes the card again. *)
Lemma updateCardButtons_twice_differs :
  updateCardButtons (updateCardButtons two_updates "done") "done" <>
  updateCardButtons two_updates "done".
Proof. vm_compute. discriminate. Qed.

(** C8, amended: on every card whose action region holds at most one update
    button (every card the script builds from plain text), and for every
    column id, [updateCardButtons] applied twice gives the card that one
    application gives; and on any card whose update button already fits the
    policy of the column it changes nothing. *)
Theorem updateCardButtons_idempotent b columnId :
  (at_most_one_update b = true ->
   updateCardButtons (updateCardButtons b columnId) columnId = updateCardButtons b columnId) /\
  (matches_policy b columnId = true -> updateCardButtons b columnId = b).
Proof.
  unfold at_most_one_update, matches_policy.
  destruct (querySelector (ByClass "card-actions") b) as [actions |] eqn:Ha.
  2: { rewrite !(updateCardButtons_no_actions b columnId Ha). split; reflexivity. }
  pose proof (querySelector_matches _ _ _ Ha) as Hm.
  destruct (matches_actions_elem _ Hm) as (t & cs & ks & ->). cbn [kids_of].
  split.
  - intros Hone. apply Nat.leb_le in Hone.
    destruct (includes UPDATE_ALLOWED_COLUMNS columnId) eqn:Hneeds;
      destruct (querySelector (ByClass "update") ks) as [u |] eqn:Hu.
    + rewrite (updateCardButtons_settled b columnId _ Ha) by (cbn [kids_of]; rewrite Hu, Hneeds; reflexivity).
      apply (updateCardButtons_settled b columnId _ Ha). cbn [kids_of]. rewrite Hu, Hneeds. reflexivity.
    + rewrite (updateCardButtons_adds b columnId _ Ha Hu Hneeds).
      eapply updateCardButtons_settled.
      * apply (with_first_in_place _ (prepend update_button)); [| exact Ha].
        intros [s | t' cs' ks']; [discriminate | auto].
      * rewrite Hneeds. reflexivity.
    + assert (querySelector (ByClass "update") (kids_of (Elem t cs ks)) <> None) as Hu'
          by (cbn [kids_of]; congruence).
      rewrite (updateCardButtons_removes b columnId _ Ha Hu' Hneeds).
      eapply updateCardButtons_settled.
      * apply (with_first_in_place _ without_update); [| exact Ha].
        intros [s | t' cs' ks']; [discriminate | auto].
      * rewrite Hneeds. cbn [without_update kids_of].
        assert (querySelector (ByClass "update")
                  (with_first (ByClass "update") (fun _ => []) ks) = None) as ->; [| reflexivity].
        apply querySelector_none_count.
        pose proof (with_first_remove_count (ByClass "update") ks) as Hlt.
        cbn [kids_of] in Hu'. specialize (Hlt Hu'). lia.
    + rewrite (updateCardButtons_settled b columnId _ Ha) by (cbn [kids_of]; rewrite Hu, Hneeds; reflexivity).
      apply (updateCardButtons_settled b columnId _ Ha). cbn [kids_of]. rewrite Hu, Hneeds. reflexivity.
  - intros Hfit. apply (updateCardButtons_settled b columnId _ Ha).
    cbn [kids_of]. apply eqb_prop in Hfit. exact Hfit.
Qed.

Lemma updateCardButtons_idempotent_witness :
  at_most_one_update (card_template "A" "x") = true /\
  matches_policy (updateCardButtons (card_template "A" "x") "done") "done" = true /\
  updateCardButtons (updateCardButtons (card_template "A" "x") "done") "done" =
    updateCardButtons (card_template "A" "x") "done" /\
  updateCardButtons (updateCardButtons (card_template "A" "x") "done") "done" =
    updateCardButtons (card_template "A" "x") "done".
Proof.
  split; [reflexivity |]. split; [reflexivity |]. split.
  - apply (proj1 (updateCardButtons_idempotent (card_template "A" "x") "done")). reflexivity.
  - apply (proj2 (updateCardButtons_idempotent (updateCardButtons (card_template "A" "x") "done") "done")).
    reflexivity.
Defined.

(** * Persistence: what [saveData] writes *)












(** * Persistence: what [loadData] rebuilds *)

Lemma fold_left_invariant {A S} (P : S -> Prop) (f : S -> A -> S) (l : list A) :
  (forall s x, In x l -> P s -> P (f s x)) ->
  forall s, P s -> P (fold_left f l s).
Proof.
  induction l as [| x l IH]; intros Hstep s Hs; [exact Hs |].
  cbn. apply IH.
  - intros s' y Hy. apply Hstep. right. exact Hy.
  - apply Hstep; [left; reflexivity | exact Hs].
Qed.

Lemma columns_on_column_ne i j f s :
  i <> j -> columns (on_column j f s) !! i = columns s !! i.
Proof. intros Hne. apply list_lookup_alter_ne. auto. Qed.

Lemma columns_on_column_eq i f s :
  columns (on_column i f s) !! i = f <$> columns s !! i.
Proof. apply list_lookup_alter_eq. Qed.

Lemma columns_remove_card c s i :
  columns (remove_card c s) !! i = with_cards (remove_ref c) <$> columns s !! i.
Proof. apply list_lookup_fmap. Qed.

Lemma columns_createCardDOM innerHTML t d s :
  columns (snd (createCardDOM innerHTML t d s)) = columns s.
Proof. reflexivity. Qed.

Lemma column_from_spec cols : forall k id j,
  column_from k cols id = Some j ->
  k <= j /\ exists column, cols !! (j - k) = Some column /\ col_id column = id.
Proof.
  induction cols as [| column rest IH]; intros k id j; cbn; [discriminate |].
  destruct (String.eqb_spec (col_id column) id) as [E | _].
  - intros [= <-]. split; [lia |]. rewrite Nat.sub_diag. eauto.
  - intros H. destruct (IH _ _ _ H) as (Hle & c & Hc & Hid). split; [lia |].
    exists c. split; [| exact Hid].
    replace (j - k) with (S (j - S k)) by lia. exact Hc.
Qed.

Lemma getElementById_spec id s j :
  getElementById id s = Some j ->
  exists column, columns s !! j = Some column /\ col_id column = id.
Proof.
  unfold getElementById. destruct (String.eqb id ""); [discriminate |].
  intros H. destruct (column_from_spec _ _ _ _ H) as (_ & c & Hc & Hid).
  rewrite Nat.sub_0_r in Hc. eauto.
Qed.

(** Rebuilding the column of one key leaves every other column without
    cards as it is. *)
Lemma rebuild_other innerHTML data s columnId i column :
  columns s !! i = Some column ->
  col_cards column = [] ->
  col_id column <> columnId ->
  columns (rebuild innerHTML data s columnId) !! i = Some column.
Proof.
  intros Hi Hempty Hid. unfold rebuild.
  destruct (getElementById columnId s) as [j |] eqn:Hj; [| exact Hi].
  destruct (getElementById_spec _ _ _ Hj) as (cj & Hcj & Hidj).
  assert (i <> j) as Hne by (intros ->; congruence).
  unfold updateCount. rewrite columns_on_column_ne by exact Hne.
  apply (fold_left_invariant (fun s => columns s !! i = Some column)).
  - intros s' cardData _ Hs'. unfold load_card.
    destruct (createCardDOM innerHTML (title cardData) (desc cardData) s') as [card s''] eqn:Hc.
    assert (columns s'' = columns s') as Hcols
        by (change s'' with (snd (card, s'')); rewrite <- Hc; reflexivity).
    cbn [columns on_card set_store]. unfold appendChild.
    rewrite columns_on_column_ne by exact Hne.
    rewrite columns_remove_card, Hcols, Hs'. cbn.
    destruct column as [id cls cnt cards]. cbn in Hempty. subst cards. reflexivity.
  - rewrite columns_on_column_ne by exact Hne. exact Hi.
Qed.

(** C2 as stated fails: task B sits in column done, the stored snapshot has
    no entry for done, and after [loadData] the column has lost its card. *)
Lemma loadData_empties_absent_column :
  (col_cards <$> columns partial_page !! 2) = Some [1] /\
  (obj_keys <$> localStorage partial_page) = Some ["todo"] /\
  (col_id <$> columns partial_page !! 2) = Some "done" /\
  (col_cards <$> columns (loadData sample_innerHTML partial_page) !! 2) = Some [].
Proof. repeat match goal with |- _ /\ _ => split end; vm_compute; reflexivity. Qed.

(** C2, amended: when [loadData] finds a stored snapshot, every column
    whose id is not a key of the snapshot is left without cards; its id, its
    class list and the text of its counter are as before. *)
Theorem loadData_absent_column innerHTML s data i column :
  localStorage s = Some data ->
  columns s !! i = Some column ->
  ~ In (col_id column) (obj_keys data) ->
  columns (loadData innerHTML s) !! i = Some (with_cards (fun _ => []) column).
Proof.
  intros Hdata Hi Habsent. unfold loadData. rewrite Hdata.
  apply (fold_left_invariant
           (fun s => columns s !! i = Some (with_cards (fun _ => []) column))).
  - intros s' columnId Hin Hs'. apply rebuild_other; [exact Hs' | reflexivity |].
    cbn. intros E. apply Habsent. rewrite E. exact Hin.
  - cbn [columns set_columns]. change (map ?f ?l) with (f <$> l).
    rewrite list_lookup_fmap, Hi. reflexivity.
Qed.

Lemma loadData_absent_column_witness :
  localStorage partial_page = Some [("todo", [{| title := "A"; desc := "x" |}])] /\
  columns (loadData sample_innerHTML partial_page) !! 2 =
    Some {| col_id := "done"; col_classes := ["column"]; count_span := Some "1"; col_cards := [] |}.
Proof.
  split; [reflexivity |].
  apply (loadData_absent_column sample_innerHTML partial_page
           [("todo", [{| title := "A"; desc := "x" |}])] 2
           {| col_id := "done"; col_classes := ["column"]; count_span := Some "1"; col_cards := [1] |}).
  - reflexivity.
  - reflexivity.
  - cbn. intros [H | []]. discriminate.
Defined.

(** * Running the script under two parsers that agree on what is parsed *)

Lemma fold_left_ext_in {A S} (f g : S -> A -> S) (l : list A) :
  (forall s x, In x l -> f s x = g s x) ->
  forall s, fold_left f l s = fold_left g l s.
Proof.
  induction l as [| x l IH]; intros H s; [reflexivity |].
  cbn. rewrite (H s x) by (left; reflexivity).
  apply IH. intros s' y Hy. apply H. right. exact Hy.
Qed.

Lemma createCardDOM_agree f g t d s :
  f t d = g t d -> createCardDOM f t d s = createCardDOM g t d s.
Proof. intros H. unfold createCardDOM. rewrite H. reflexivity. Qed.

Lemma obj_get_in data k v : obj_get data k = Some v -> In v (map snd data).
Proof.
  induction data as [| [k' v'] rest IH]; cbn; [discriminate |].
  destruct (String.eqb k' k); [intros [= ->]; auto | auto].
Qed.

Lemma rebuild_agree f g data s columnId :
  agree_on f g (map (fun cardData => (title cardData, desc cardData))
                    (List.concat (map snd data))) ->
  rebuild f data s columnId = rebuild g data s columnId.
Proof.
  intros Hag. unfold rebuild.
  destruct (getElementById columnId s) as [j |]; [| reflexivity].
  f_equal. apply fold_left_ext_in. intros s' cardData Hin. unfold load_card.
  rewrite (createCardDOM_agree f g); [reflexivity |].
  destruct (obj_get data columnId) as [v |] eqn:Hv; [| destruct Hin].
  unfold agree_on in Hag. rewrite List.Forall_forall in Hag.
  apply (Hag (title cardData, desc cardData)).
  apply in_map_iff. exists cardData. split; [reflexivity |].
  apply in_concat. exists v. split; [eapply obj_get_in; eauto | exact Hin].
Qed.

Lemma loadData_agree f g s :
  agree_on f g (parsed_by DOMContentLoaded s) -> loadData f s = loadData g s.
Proof.
  unfold loadData. cbn [parsed_by]. destruct (localStorage s) as [data |]; [| reflexivity].
  intros Hag. apply fold_left_ext_in. intros s' k _. apply rebuild_agree, Hag.
Qed.

Lemma on_submit_agree f g s :
  agree_on f g (parsed_by Submit s) -> on_submit f s = on_submit g s.
Proof.
  cbn [parsed_by]. unfold on_submit. cbv zeta.
  destruct (String.eqb (trim (title_value (dialog s))) ""); [reflexivity |].
  destruct (editingCard s); [reflexivity |].
  intros Hag. apply Forall_inv in Hag. cbn [fst snd] in Hag.
  rewrite (createCardDOM_agree f g _ _ s Hag). reflexivity.
Qed.

Lemma dispatch_agree f g e s :
  agree_on f g (parsed_by e s) -> dispatch f e s = dispatch g e s.
Proof.
  destruct e; try reflexivity; intros Hag; cbn [dispatch].
  - unfold on_DOMContentLoaded. rewrite (loadData_agree f g s Hag). reflexivity.
  - rewrite (on_submit_agree f g s Hag). reflexivity.
Qed.

Lemma run_agree f g es : forall s,
  agree_along f g es s -> run f es s = run g es s.
Proof.
  induction es as [| e es IH]; intros s; [reflexivity |].
  cbn [agree_along]. intros [He Hes]. unfold run. cbn [fold_left].
  rewrite (dispatch_agree f g e s He). apply IH, Hes.
Qed.


Lemma sample_parses_plain : parses_plain sample_innerHTML.
Proof.
  intros t d Ht _. unfold sample_innerHTML.
  destruct (String.eqb_spec t amp_title) as [-> | _]; [discriminate |].
  destruct (String.eqb_spec t button_title) as [-> | _]; [discriminate | reflexivity].
Qed.

(** * Three defects, run on concrete boards *)

(** Splits an [agree_along] obligation of a concrete run and evaluates the
    list of parsed tasks of each event. *)
Ltac evaluate_parsed :=
  repeat match goal with
         | |- _ /\ _ => split
         | |- True => exact I
         | |- agree_on _ _ ?l =>
             progress (let l' := eval vm_compute in l in change l with l')
         end.

(** Conjunctions of closed equations, each settled by evaluation. *)
Ltac by_computation :=
  repeat match goal with |- _ /\ _ => split end; vm_compute; reflexivity.

(** C3, on task A dragged from todo to done: the card leaves todo and becomes
    the last card of done, it loses its update button as done is not in the
    allow-list, the counter of done goes from 0 to 1 and the board is
    persisted; but the counter of todo still shows 1 over an empty column,
    since the drop listener refreshes the target column only. *)
Theorem drop_leaves_source_counter innerHTML :
  let s := run innerHTML drag_A_done page_A in
  (col_cards <$> columns page_A !! 0) = Some [0] /\
  (count_span <$> columns page_A !! 0) = Some (Some "1") /\
  (count_span <$> columns page_A !! 2) = Some (Some "0") /\
  (col_cards <$> columns s !! 0) = Some [] /\
  (count_span <$> columns s !! 0) = Some (Some "1") /\
  (col_cards <$> columns s !! 2) = Some [0] /\
  (count_span <$> columns s !! 2) = Some (Some "1") /\
  (has_update <$> store s !! 0) = Some false /\
  localStorage s =
    Some [("todo", []); ("in-progress", []); ("done", [{| title := "A"; desc := "x" |}])].
Proof. cbv zeta. by_computation. Qed.

(** C1, on the board reached by adding task A/x and retitling it to the
    text [&amp;] in the edit dialog (which writes [textContent]): [saveData]
    stores that title, and [loadData], which splices it into [innerHTML],
    rebuilds the task with the title [&].  The parser is assumed to read
    plain text as text and to decode the character reference. *)
Theorem roundtrip_decodes_title innerHTML :
  parses_plain innerHTML ->
  innerHTML amp_title "x" = card_tree [Text "&"] [Text "x"] ->
  let s := run innerHTML (add_A ++ retitle_amp) empty_page in
  let s' := loadData innerHTML (final (saveData s)) in
  saveData s = Normal (final (saveData s)) /\
  (columns s !! 0 ≫= column_tasks s) = Some [{| title := "&amp;"; desc := "x" |}] /\
  (columns s' !! 0 ≫= column_tasks s') = Some [{| title := "&"; desc := "x" |}].
Proof.
  intros Hp H. cbv zeta.
  rewrite (run_agree innerHTML sample_innerHTML).
  - rewrite (loadData_agree innerHTML sample_innerHTML).
    + by_computation.
    + evaluate_parsed. repeat constructor. exact H.
  - cbn [agree_along add_A retitle_amp app]. evaluate_parsed.
    all: repeat constructor. cbn [fst snd]. rewrite (Hp "A" "x" eq_refl eq_refl). reflexivity.
Qed.

Lemma roundtrip_decodes_title_witness :
  let s := run sample_innerHTML (add_A ++ retitle_amp) empty_page in
  let s' := loadData sample_innerHTML (final (saveData s)) in
  saveData s = Normal (final (saveData s)) /\
  (columns s !! 0 ≫= column_tasks s) = Some [{| title := "&amp;"; desc := "x" |}] /\
  (columns s' !! 0 ≫= column_tasks s') = Some [{| title := "&"; desc := "x" |}].
Proof.
  apply (roundtrip_decodes_title sample_innerHTML).
  - exact sample_parses_plain.
  - reflexivity.
Defined.

(** C9, on a task added with the markup of an update button as its title
    and dragged to done: the card sits in a column outside the allow-list
    and carries an update affordance, inside its title, where
    [updateCardButtons] does not look; a click on it opens the edit dialog
    for the task.  The parser is assumed to read the plain description as
    text and the title as the button element it spells. *)
Theorem markup_title_keeps_update innerHTML :
  innerHTML button_title "" = card_tree [Elem "button" ["update"] [Text "E"]] [] ->
  let s := run innerHTML add_button_done empty_page in
  (col_id <$> columns s !! 2) = Some "done" /\
  includes UPDATE_ALLOWED_COLUMNS "done" = false /\
  (col_cards <$> columns s !! 2) = Some [0] /\
  (has_update <$> store s !! 0) = Some true /\
  editingCard s = None /\
  editingCard (dispatch innerHTML (ClickUpdate 0) s) = Some 0.
Proof.
  intros H. cbv zeta.
  rewrite (run_agree innerHTML sample_innerHTML).
  - by_computation.
  - cbn [agree_along add_button_done]. evaluate_parsed.
    all: repeat constructor. exact H.
Qed.

Lemma markup_title_keeps_update_witness :
  let s := run sample_innerHTML add_button_done empty_page in
  (col_id <$> columns s !! 2) = Some "done" /\
  includes UPDATE_ALLOWED_COLUMNS "done" = false /\
  (col_cards <$> columns s !! 2) = Some [0] /\
  (has_update <$> store s !! 0) = Some true /\
  editingCard s = None /\
  editingCard (dispatch sample_innerHTML (ClickUpdate 0) s) = Some 0.
Proof. apply (markup_title_keeps_update sample_innerHTML). reflexivity. Defined.

Lemma createCardDOM_regions_witness :
  exists k actions,
    built_card sample_innerHTML "A" "x" empty_page = Some k /\
    read_text (ByTag "h3") k = Some "A" /\
    read_text (ByTag "p") k = Some "x" /\
    querySelector (ByClass "card-actions") (body k) = Some actions /\
    is_some (querySelector (ByClass "delete") (kids_of actions)) = true /\
    is_some (querySelector (ByClass "update") (kids_of actions)) = true /\
    draggable k = true /\ drag_listeners k = 1.
Proof.
  apply (createCardDOM_regions sample_innerHTML "A" "x" empty_page).
  - exact sample_parses_plain.
  - reflexivity.
  - reflexivity.
Defined.

(** * The drop listener in general *)

(** X4: after [updateCardButtons] the update button of the action region
    fits the policy, provided there was at most one to begin with. *)
Lemma updateCardButtons_fits b columnId :
  at_most_one_update b = true ->
  matches_policy (updateCardButtons b columnId) columnId = true.
Proof.
  unfold at_most_one_update, matches_policy.
  destruct (querySelector (ByClass "card-actions") b) as [actions |] eqn:Ha.
  2: { rewrite (updateCardButtons_no_actions b columnId Ha), Ha. reflexivity. }
  pose proof (querySelector_matches _ _ _ Ha) as Hm.
  destruct (matches_actions_elem _ Hm) as (t & cs & ks & ->). cbn [kids_of].
  intros Hone. apply Nat.leb_le in Hone.
  destruct (includes UPDATE_ALLOWED_COLUMNS columnId) eqn:Hneeds;
    destruct (querySelector (ByClass "update") ks) as [u |] eqn:Hu.
  - rewrite (updateCardButtons_settled b columnId _ Ha) by (cbn [kids_of]; rewrite Hu, Hneeds; reflexivity).
    rewrite Ha. cbn [kids_of]. rewrite Hu. reflexivity.
  - rewrite (updateCardButtons_adds b columnId _ Ha Hu Hneeds).
    rewrite (with_first_in_place _ (prepend update_button) _ (Elem t cs ks));
      [reflexivity | | exact Ha].
    intros [s | t' cs' ks']; [discriminate | auto].
  - assert (querySelector (ByClass "update") (kids_of (Elem t cs ks)) <> None) as Hu'
        by (cbn [kids_of]; congruence).
    rewrite (updateCardButtons_removes b columnId _ Ha Hu' Hneeds).
    rewrite (with_first_in_place _ without_update _ (Elem t cs ks));
      [| | exact Ha].
    + cbn [without_update kids_of].
      assert (querySelector (ByClass "update")
                (with_first (ByClass "update") (fun _ => []) ks) = None) as ->; [| reflexivity].
      apply querySelector_none_count.
      pose proof (with_first_remove_count (ByClass "update") ks) as Hlt.
      cbn [kids_of] in Hu'. specialize (Hlt Hu'). lia.
    + intros [s | t' cs' ks']; [discriminate | auto].
  - rewrite (updateCardButtons_settled b columnId _ Ha) by (cbn [kids_of]; rewrite Hu, Hneeds; reflexivity).
    rewrite Ha. cbn [kids_of]. rewrite Hu. reflexivity.
Qed.

Lemma remove_ref_notin c l : ~ In c l -> remove_ref c l = l.
Proof.
  unfold remove_ref. induction l as [| x l IH]; intros H; [reflexivity |].
  cbn in H. cbn [List.filter]. destruct (Nat.eqb_spec x c) as [-> | _]; [tauto |].
  cbn [negb]. f_equal. apply IH. tauto.
Qed.



(** * The round trip on plain text *)

Lemma rewrite_first_none sel f ks :
  querySelector sel ks = None -> rewrite_first (edit sel f) ks = None.
Proof.
  induction ks as [| k ks IH]; [reflexivity |].
  rewrite querySelector_cons, rewrite_first_cons.
  destruct (find sel k) eqn:Hf; [discriminate |].
  intros Hq. rewrite (edit_none _ _ _ Hf), (IH Hq). reflexivity.
Qed.







Lemma map_id_in {A} (f : A -> A) (l : list A) :
  (forall x, In x l -> f x = x) -> map f l = l.
Proof.
  induction l as [| x l IH]; intros H; [reflexivity |].
  cbn. rewrite (H x) by (left; reflexivity). f_equal.
  apply IH. intros y Hy. apply H. right. exact Hy.
Qed.

Lemma with_cards_id f column :
  f (col_cards column) = col_cards column -> with_cards f column = column.
Proof. destruct column. unfold with_cards. cbn. intros ->. reflexivity. Qed.

(** A card that is on no column can be "removed" without effect. *)
Lemma remove_card_fresh c s :
  refs_valid s -> List.length (store s) <= c -> columns (remove_card c s) = columns s.
Proof.
  intros Hv Hc. cbn [remove_card set_columns columns].
  apply map_id_in. intros column Hin. apply with_cards_id, remove_ref_notin.
  intros Hc'. specialize (Hv column c Hin Hc'). lia.
Qed.

(** One round of the inner loop of [loadData]: a new card at the end of
    the store, referenced at the end of the column, everything else as
    before. *)
Lemma load_card_spec innerHTML j columnId s x :
  refs_valid s ->
  let s' := load_card innerHTML j columnId s x in
  store s' = store s ++ [loaded_card innerHTML columnId x] /\
  columns s' = alter (with_cards (fun l => l ++ [List.length (store s)])) j (columns s) /\
  draggedCard s' = draggedCard s /\ editingCard s' = editingCard s /\
  dialog s' = dialog s /\ localStorage s' = localStorage s.
Proof.
  intros Hv. unfold load_card, createCardDOM, attachDragEvents.
  cbv zeta.
  set (c := List.length (store s)).
  set (newCard := {| classList := ["card"]; draggable := true;
                     body := innerHTML (title x) (desc x); drag_listeners := 0 |}).
  set (s1 := on_card c with_listener (set_store (fun st => st ++ [newCard]) s)).
  assert (refs_valid s1) as Hv1.
  { intros column c' Hin Hc'. specialize (Hv column c' Hin Hc').
    cbn [s1 on_card set_store store]. rewrite length_alter, length_app. lia. }
  assert (columns (remove_card c s1) = columns s) as Hcols.
  { cbn [remove_card set_columns columns s1 on_card set_store].
    apply map_id_in. intros column Hin. apply with_cards_id, remove_ref_notin.
    intros Hc'. specialize (Hv column c Hin Hc'). unfold c in Hv. lia. }
  repeat split; try reflexivity.
  - cbn [on_card set_store store appendChild on_column set_columns remove_card s1].
    rewrite list_alter_alter_eq.
    apply list_eq. intros i. rewrite list_lookup_alter.
    destruct (decide (c = i)) as [<- | Hne].
    + rewrite !lookup_app_r by (unfold c; lia). unfold c. rewrite Nat.sub_diag. reflexivity.
    + destruct (decide (i < c)) as [Hlt | Hge].
      * rewrite !lookup_app_l by exact Hlt. reflexivity.
      * rewrite !lookup_app_r by (unfold c in *; lia).
        fold c. destruct (i - c) as [| n] eqn:E; [lia | reflexivity].
  - cbn [on_card set_store columns appendChild on_column set_columns].
    change (columns (remove_card c s1)) with (columns (remove_card c s1)).
    f_equal. exact Hcols.
Qed.

Lemma refs_valid_alter_append s s' j n :
  refs_valid s ->
  columns s' = alter (with_cards (fun l => l ++ [n])) j (columns s) ->
  n < List.length (store s') ->
  List.length (store s) <= List.length (store s') ->
  refs_valid s'.
Proof.
  intros Hv Hcols Hn Hlen column c Hin Hc.
  rewrite Hcols in Hin. apply list_elem_of_In, list_elem_of_lookup in Hin as [i Hi].
  rewrite list_lookup_alter in Hi. destruct (decide (j = i)) as [-> | Hne].
  - destruct (columns s !! i) as [column0 |] eqn:E; [| discriminate].
    injection Hi as <-. cbn in Hc. apply in_app_iff in Hc as [Hc | [<- | []]]; [| exact Hn].
    assert (In column0 (columns s)) as Hin0
        by (apply list_elem_of_In, list_elem_of_lookup; eauto).
    specialize (Hv column0 c Hin0 Hc). lia.
  - assert (In column (columns s)) as Hin0
        by (apply list_elem_of_In, list_elem_of_lookup; eauto).
    specialize (Hv column c Hin0 Hc). lia.
Qed.

(** The inner loop of [loadData]: the cards of the stored tasks are
    appended to the store, and their references to the column. *)
Lemma load_cards_spec innerHTML j columnId : forall v s,
  refs_valid s ->
  let s' := fold_left (load_card innerHTML j columnId) v s in
  store s' = store s ++ map (loaded_card innerHTML columnId) v /\
  columns s' =
    alter (with_cards (fun l => l ++ seq (List.length (store s)) (List.length v))) j (columns s) /\
  refs_valid s' /\
  draggedCard s' = draggedCard s /\ dialog s' = dialog s /\ localStorage s' = localStorage s.
Proof.
  induction v as [| x v IH]; intros s Hv; cbv zeta.
  - cbn [fold_left map seq List.length]. rewrite app_nil_r. split; [reflexivity |].
    split; [| split; [exact Hv | auto]].
    symmetry. apply list_alter_id. intros column. apply with_cards_id, app_nil_r.
  - cbn [fold_left].
    destruct (load_card_spec innerHTML j columnId s x Hv) as (Hst & Hcols & Hd & _ & Hdi & Hl).
    set (s1 := load_card innerHTML j columnId s x) in *. clearbody s1.
    assert (refs_valid s1) as Hv1.
    { apply (refs_valid_alter_append s s1 j _ Hv Hcols); rewrite Hst, length_app; cbn; lia. }
    destruct (IH s1 Hv1) as (Hst' & Hcols' & Hv' & Hd' & Hdi' & Hl').
    split; [| split; [| split; [exact Hv' |]]].
    + rewrite Hst', Hst, <- app_assoc. reflexivity.
    + rewrite Hcols', Hcols, list_alter_alter_eq.
      apply list_alter_ext; [| reflexivity]. intros column _.
      unfold with_cards, compose. cbn. f_equal.
      rewrite Hst, length_app, <- app_assoc. cbn. rewrite Nat.add_1_r. reflexivity.
    + rewrite Hd', Hdi', Hl'. auto.
Qed.

(** What rebuilding the column of one key does, as a whole. *)
Lemma rebuild_spec innerHTML data s columnId j :
  refs_valid s ->
  getElementById columnId s = Some j ->
  let v := default [] (obj_get data columnId) in
  let s' := rebuild innerHTML data s columnId in
  store s' = store s ++ map (loaded_card innerHTML columnId) v /\
  columns s' =
    alter (fun column =>
             refreshed (with_cards (fun _ => seq (List.length (store s)) (List.length v)) column))
          j (columns s) /\
  refs_valid s' /\
  draggedCard s' = draggedCard s /\ dialog s' = dialog s /\ localStorage s' = localStorage s.
Proof.
  intros Hv Hj. cbv zeta. unfold rebuild. rewrite Hj.
  set (s0 := on_column j (with_cards (fun _ => [])) s).
  assert (refs_valid s0) as Hv0.
  { intros column c Hin Hc. cbn [s0 on_column set_columns columns] in Hin.
    apply list_elem_of_In, list_elem_of_lookup in Hin as [i Hi].
    rewrite list_lookup_alter in Hi. destruct (decide (j = i)) as [-> | Hne].
    - destruct (columns s !! i); [| discriminate]. injection Hi as <-. destruct Hc.
    - apply (Hv column c); [| exact Hc]. apply list_elem_of_In, list_elem_of_lookup. eauto. }
  destruct (load_cards_spec innerHTML j columnId (default [] (obj_get data columnId)) s0 Hv0)
    as (Hst & Hcols & Hv' & Hfr).
  set (s1 := fold_left _ _ s0) in *. clearbody s1.
  split; [exact Hst |]. split; [| split; [| exact Hfr]].
  - unfold updateCount. cbn [on_column set_columns columns]. rewrite Hcols.
    cbn [s0 on_column set_columns columns store]. rewrite !list_alter_alter_eq.
    apply list_alter_ext; [| reflexivity]. intros column _. reflexivity.
  - intros column c Hin Hc. unfold updateCount in Hin.
    cbn [on_column set_columns columns] in Hin.
    apply list_elem_of_In, list_elem_of_lookup in Hin as [i Hi].
    rewrite list_lookup_alter in Hi.
    change (store (updateCount j s1)) with (store s1).
    destruct (decide (j = i)) as [-> | Hne].
    + destruct (columns s1 !! i) as [column1 |] eqn:E; [| discriminate].
      injection Hi as <-. apply (Hv' column1 c).
      * apply list_elem_of_In, list_elem_of_lookup. eauto.
      * unfold refreshed in Hc. destruct (count_span column1); exact Hc.
    + apply (Hv' column c); [| exact Hc]. apply list_elem_of_In, list_elem_of_lookup. eauto.
Qed.




Lemma map_col_id_alter f j cols :
  (forall column, col_id (f column) = col_id column) ->
  map col_id (alter f j cols) = map col_id cols.
Proof.
  intros Hf. apply list_eq. intros i.
  change (map col_id ?l) with (col_id <$> l).
  rewrite !list_lookup_fmap, list_lookup_alter.
  destruct (decide (j = i)) as [-> | _]; [| reflexivity].
  destruct (cols !! i); [cbn; rewrite Hf |]; reflexivity.
Qed.

Lemma col_id_refreshed column : col_id (refreshed column) = col_id column.
Proof. unfold refreshed. destruct (count_span column); reflexivity. Qed.

Lemma col_cards_refreshed column : col_cards (refreshed column) = col_cards column.
Proof. unfold refreshed. destruct (count_span column); reflexivity. Qed.




Lemma obj_set_values data k v v' :
  In v' (map snd (obj_set data k v)) -> v' = v \/ In v' (map snd data).
Proof.
  induction data as [| [k0 v0] rest IH]; cbn.
  - intros [<- | []]. auto.
  - destruct (String.eqb k0 k); cbn; intros [<- | Hin]; auto.
    destruct (IH Hin); auto.
Qed.

Lemma collect_values st cols : forall data data' v,
  collect st cols data = Some data' ->
  In v (map snd data') ->
  In v (map snd data) \/
  exists column, In column cols /\ mapM (card_task st) (col_cards column) = Some v.
Proof.
  induction cols as [| column rest IH]; intros data data' v; cbn [collect].
  - intros [= <-]. auto.
  - destruct (mapM (card_task st) (col_cards column)) as [columnCards |] eqn:Hc; [| discriminate].
    cbn. intros H Hin. destruct (IH _ _ _ H Hin) as [Hd | (column' & Hin' & Hv)].
    + apply obj_set_values in Hd as [-> | Hd]; [| auto].
      right. exists column. split; [left; reflexivity | exact Hc].
    + right. exists column'. split; [right; exact Hin' | exact Hv].
Qed.


(** * The button policy as an invariant, on plain text *)

Lemma layout_h3 h3_kids p_kids acts :
  querySelector (ByTag "h3") (card_layout h3_kids p_kids acts) = Some (Elem "h3" [] h3_kids).
Proof. reflexivity. Qed.

Lemma layout_p h3_kids p_kids acts :
  querySelector (ByTag "p") h3_kids = None ->
  querySelector (ByTag "p") (card_layout h3_kids p_kids acts) = Some (Elem "p" [] p_kids).
Proof.
  intros H. unfold card_layout. rewrite !querySelector_cons, !find_elem, H. reflexivity.
Qed.

Lemma layout_actions h3_kids p_kids acts :
  querySelector (ByClass "card-actions") h3_kids = None ->
  querySelector (ByClass "card-actions") p_kids = None ->
  querySelector (ByClass "card-actions") (card_layout h3_kids p_kids acts) =
  Some (Elem "div" ["card-actions"] acts).
Proof.
  intros H1 H2. unfold card_layout.
  rewrite !querySelector_cons, !find_elem, H1, H2. reflexivity.
Qed.

Lemma layout_update h3_kids p_kids acts :
  querySelector (ByClass "update") h3_kids = None ->
  querySelector (ByClass "update") p_kids = None ->
  querySelector (ByClass "update") (card_layout h3_kids p_kids acts) =
  querySelector (ByClass "update") acts.
Proof.
  intros H1 H2. unfold card_layout.
  rewrite !querySelector_cons, !find_elem, H1, H2.
  cbn [find gap matches has_class existsb].
  change (has_class "update" ["card-actions"]) with false. cbv iota.
  destruct (querySelector (ByClass "update") acts); reflexivity.
Qed.

Lemma layout_with_actions g h3_kids p_kids acts :
  querySelector (ByClass "card-actions") h3_kids = None ->
  querySelector (ByClass "card-actions") p_kids = None ->
  with_first (ByClass "card-actions") (fun a => [g a]) (card_layout h3_kids p_kids acts) =
  [gap 6; Elem "h3" [] h3_kids; gap 6; Elem "p" [] p_kids; gap 6;
   g (Elem "div" ["card-actions"] acts); gap 4].
Proof.
  intros H1 H2. unfold with_first, card_layout.
  rewrite !rewrite_first_cons, !edit_elem.
  rewrite (rewrite_first_none _ _ _ H1), (rewrite_first_none _ _ _ H2).
  reflexivity.
Qed.

Lemma layout_set_h3 t h3_kids p_kids acts :
  with_first (ByTag "h3") (fun e => [set_textContent t e]) (card_layout h3_kids p_kids acts) =
  card_layout (text_nodes t) p_kids acts.
Proof. reflexivity. Qed.

Lemma layout_set_p d h3_kids p_kids acts :
  querySelector (ByTag "p") h3_kids = None ->
  with_first (ByTag "p") (fun e => [set_textContent d e]) (card_layout h3_kids p_kids acts) =
  card_layout h3_kids (text_nodes d) acts.
Proof.
  intros H. unfold with_first, card_layout.
  rewrite !rewrite_first_cons, !edit_elem.
  rewrite (rewrite_first_none _ _ _ H).
  reflexivity.
Qed.

(** [updateCardButtons] moves a kept card between the three states of its
    action region. *)
Lemma updateCardButtons_layout t d r columnId :
  updateCardButtons (card_layout (text_nodes t) (text_nodes d) (region_kids r)) columnId =
  card_layout (text_nodes t) (text_nodes d) (region_kids (fit r columnId)).
Proof.
  pose proof (layout_actions (text_nodes t) (text_nodes d) (region_kids r)
                (querySelector_text_nodes _ _) (querySelector_text_nodes _ _)) as Ha.
  unfold fit. destruct (includes UPDATE_ALLOWED_COLUMNS columnId) eqn:Hn.
  - destruct r.
    + apply (updateCardButtons_settled _ _ _ Ha). rewrite Hn. reflexivity.
    + rewrite (updateCardButtons_adds _ _ _ Ha eq_refl Hn).
      apply layout_with_actions; apply querySelector_text_nodes.
    + apply (updateCardButtons_settled _ _ _ Ha). rewrite Hn. reflexivity.
  - destruct r.
    + rewrite (updateCardButtons_removes _ _ _ Ha); [| discriminate | exact Hn].
      apply layout_with_actions; apply querySelector_text_nodes.
    + apply (updateCardButtons_settled _ _ _ Ha). rewrite Hn. reflexivity.
    + rewrite (updateCardButtons_removes _ _ _ Ha); [| discriminate | exact Hn].
      apply layout_with_actions; apply querySelector_text_nodes.
Qed.

Lemma layout_has_update t d r :
  querySelector (ByClass "update") (card_layout (text_nodes t) (text_nodes d) (region_kids r)) =
  querySelector (ByClass "update") (region_kids r).
Proof. apply layout_update; apply querySelector_text_nodes. Qed.

Lemma kept_has_update k t d r :
  body k = card_layout (text_nodes t) (text_nodes d) (region_kids r) ->
  has_update k = match r with Without => false | _ => true end.
Proof.
  intros Hb. unfold has_update. rewrite Hb, layout_has_update. destruct r; reflexivity.
Qed.

Lemma kept_task k t d r :
  body k = card_layout (text_nodes t) (text_nodes d) (region_kids r) ->
  read_text (ByTag "h3") k = Some t /\ read_text (ByTag "p") k = Some d.
Proof.
  intros Hb. unfold read_text. rewrite Hb, layout_h3, layout_p by apply querySelector_text_nodes.
  cbn [option_map]. rewrite !textContent_text_nodes. auto.
Qed.

Lemma plain_trim_start s : plain s = true -> plain (trim_start s) = true.
Proof.
  induction s as [| a s IH]; [reflexivity |].
  cbn. intros H. apply andb_true_iff in H as [Ha Hs].
  destruct (is_space a); [apply IH, Hs |]. cbn. rewrite Ha, Hs. reflexivity.
Qed.

Lemma plain_trim_end s : plain s = true -> plain (trim_end s) = true.
Proof.
  induction s as [| a s IH]; [reflexivity |].
  cbn. intros H. apply andb_true_iff in H as [Ha Hs]. specialize (IH Hs).
  destruct (trim_end s) as [| b u].
  - destruct (is_space a); [reflexivity |]. cbn. rewrite Ha. reflexivity.
  - cbn. cbn in IH. rewrite Ha, IH. reflexivity.
Qed.

Lemma plain_trim s : plain s = true -> plain (trim s) = true.
Proof. intros H. apply plain_trim_end, plain_trim_start, H. Qed.

Lemma in_alter {A} (f : A -> A) i (l : list A) x :
  In x (alter f i l) -> In x l \/ exists y, In y l /\ x = f y.
Proof.
  intros Hin. apply list_elem_of_In, list_elem_of_lookup in Hin as [j Hj].
  rewrite list_lookup_alter in Hj. destruct (decide (i = j)) as [-> | _].
  - destruct (l !! j) as [y |] eqn:E; [| discriminate]. injection Hj as <-.
    right. exists y. split; [| reflexivity]. apply list_elem_of_In, list_elem_of_lookup. eauto.
  - left. apply list_elem_of_In, list_elem_of_lookup. eauto.
Qed.

(** Changes that touch neither the board nor the cards. *)
Lemma tidy_frame s s' :
  columns s' = columns s -> store s' = store s -> draggedCard s' = draggedCard s ->
  fields_ok s' -> storage_ok s' -> tidy s -> tidy s'.
Proof.
  intros Hc Hs Hd Hf Hl (Hk & [Hv Hp] & Hdr & _ & _).
  unfold tidy, cards_kept, board_ok, refs_valid, policy_holds, drag_ok.
  rewrite Hc, Hs, Hd. auto 10.
Qed.

Lemma tidy_set_dialog f s :
  plain (title_value (f (dialog s))) = true -> plain (desc_value (f (dialog s))) = true ->
  tidy s -> tidy (set_dialog f s).
Proof.
  intros H1 H2 Ht. apply (tidy_frame s); try reflexivity; [split; assumption | apply Ht | exact Ht].
Qed.

Lemma tidy_set_editingCard e s : tidy s -> tidy (set_editingCard e s).
Proof. intros Ht. apply (tidy_frame s); try reflexivity; apply Ht || exact Ht. Qed.

Lemma tidy_set_draggedCard d s :
  (forall c, d = Some c -> c < List.length (store s)) ->
  tidy s -> tidy (set_draggedCard d s).
Proof.
  intros Hd (Hk & Hb & _ & Hf & Hl).
  split; [exact Hk |]. split; [exact Hb |]. split; [exact Hd |]. split; [exact Hf | exact Hl].
Qed.

(** Changes of a column that keep its id and its cards. *)
Lemma tidy_on_column i f s :
  (forall column, col_id (f column) = col_id column /\ col_cards (f column) = col_cards column) ->
  tidy s -> tidy (on_column i f s).
Proof.
  intros Hf (Hk & [Hv Hp] & Hd & [Hf1 Hf2] & Hl).
  repeat split; try assumption.
  - intros column c Hin Hc. cbn [on_column set_columns columns store] in *.
    apply in_alter in Hin as [Hin | (y & Hy & ->)].
    + apply (Hv column c Hin Hc).
    + rewrite (proj2 (Hf y)) in Hc. apply (Hv y c Hy Hc).
  - intros column c Hin Hc Hno. cbn [on_column set_columns columns store] in *.
    apply in_alter in Hin as [Hin | (y & Hy & ->)].
    + apply (Hp column c Hin Hc Hno).
    + rewrite (proj2 (Hf y)) in Hc. rewrite (proj1 (Hf y)) in Hno. apply (Hp y c Hy Hc Hno).
Qed.

Lemma tidy_updateCount i s : tidy s -> tidy (updateCount i s).
Proof.
  apply tidy_on_column. intros column.
  rewrite col_id_refreshed, col_cards_refreshed. auto.
Qed.

(** Changes of a card that keep it kept, with the same update affordance. *)
Lemma tidy_on_card c f s :
  (forall k, kept k -> kept (f k) /\ has_update (f k) = has_update k) ->
  tidy s -> tidy (on_card c f s).
Proof.
  intros Hf (Hk & [Hv Hp] & Hd & [Hf1 Hf2] & Hl).
  repeat split; try assumption.
  - intros c' k' Hc'. cbn [on_card set_store store] in Hc'.
    rewrite list_lookup_alter in Hc'. destruct (decide (c = c')) as [<- | _]; [| eauto].
    destruct (store s !! c) as [k |] eqn:E; [| discriminate]. injection Hc' as <-.
    apply Hf. eauto.
  - intros column c' Hin Hc'. cbn [on_card set_store store columns] in *.
    rewrite length_alter. eauto.
  - intros column c' Hin Hc' Hno. cbn [on_card set_store store columns] in *.
    specialize (Hp column c' Hin Hc' Hno).
    rewrite list_lookup_alter. destruct (decide (c = c')) as [<- | _]; [| exact Hp].
    destruct (store s !! c) as [k |] eqn:E; [| discriminate].
    cbn in Hp |- *. rewrite (proj2 (Hf k (Hk c k E))). exact Hp.
  - intros c' Hc'. cbn [on_card set_store store draggedCard] in *.
    rewrite length_alter. eauto.
Qed.

Lemma kept_same_body f k :
  body (f k) = body k -> kept k -> kept (f k) /\ has_update (f k) = has_update k.
Proof.
  intros Hb (t & d & r & Hk & Ht & Hd). split.
  - exists t, d, r. rewrite Hb. auto.
  - unfold has_update. rewrite Hb. reflexivity.
Qed.

Lemma tidy_remove_card c s : tidy s -> tidy (remove_card c s).
Proof.
  intros (Hk & [Hv Hp] & Hd & [Hf1 Hf2] & Hl).
  assert (forall column c', In column (columns (remove_card c s)) -> In c' (col_cards column) ->
            exists column0, In column0 (columns s) /\ In c' (col_cards column0) /\
                            col_id column0 = col_id column) as Hsub.
  { intros column c' Hin Hc'. cbn [remove_card set_columns columns] in Hin.
    apply in_map_iff in Hin as (column0 & <- & Hin0). exists column0.
    cbn in Hc'. unfold remove_ref in Hc'. apply filter_In in Hc' as [Hc' _]. auto. }
  repeat split; try assumption.
  - intros column c' Hin Hc'. destruct (Hsub column c' Hin Hc') as (column0 & H0 & H1 & _).
    apply (Hv column0 c' H0 H1).
  - intros column c' Hin Hc' Hno. destruct (Hsub column c' Hin Hc') as (column0 & H0 & H1 & H2).
    apply (Hp column0 c' H0 H1). rewrite H2. exact Hno.
Qed.

(** The tasks that [saveData] reads from a tidy board are plain. *)
Lemma tidy_card_task s c x :
  cards_kept s -> card_task (store s) c = Some x -> plain_task x = true.
Proof.
  intros Hk Hx. unfold card_task in Hx.
  destruct (store s !! c) as [k |] eqn:E; [| discriminate]. cbn in Hx.
  destruct (Hk c k E) as (t & d & r & Hb & Ht & Hd).
  destruct (kept_task k t d r Hb) as [H1 H2]. rewrite H1 in Hx. cbn in Hx.
  rewrite H2 in Hx. cbn in Hx. injection Hx as <-.
  unfold plain_task. cbn. rewrite Ht, Hd. reflexivity.
Qed.

Lemma mapM_Forall {A B} (f : A -> option B) (P : B -> Prop) (l : list A) (k : list B) :
  (forall x y, In x l -> f x = Some y -> P y) ->
  mapM f l = Some k -> Forall P k.
Proof.
  revert k. induction l as [| x l IH]; intros k HP; cbn.
  - intros [= <-]. constructor.
  - destruct (f x) as [y |] eqn:Hy; [| discriminate]. cbn.
    destruct (mapM f l) as [k' |] eqn:Hk; [| discriminate]. cbn.
    intros [= <-]. constructor.
    + apply (HP x y); [left; reflexivity | exact Hy].
    + apply IH; [| reflexivity]. intros x' y' Hx'. apply HP. right. exact Hx'.
Qed.

Lemma tidy_saveData s : tidy s -> tidy (final (saveData s)).
Proof.
  intros Ht. unfold saveData.
  destruct (collect (store s) (columns s) []) as [data |] eqn:Hc; [| exact Ht].
  cbn [final]. apply (tidy_frame s); try reflexivity; [apply Ht | | exact Ht].
  intros data' [= <-]. apply List.Forall_forall. intros x Hx.
  apply in_concat in Hx as (v & Hv & Hx).
  destruct (collect_values _ _ _ _ _ Hc Hv) as [[] | (column & Hin & Hm)].
  pose proof (mapM_Forall _ (fun x => plain_task x = true) _ _
                (fun c y _ Hy => tidy_card_task s c y (proj1 Ht) Hy) Hm) as Hall.
  rewrite List.Forall_forall in Hall. apply Hall, Hx.
Qed.

Lemma tidy_with_classList c f s : tidy s -> tidy (on_card c (with_classList f) s).
Proof. apply tidy_on_card. intros k. apply kept_same_body. reflexivity. Qed.

Lemma tidy_attachDragEvents c s : tidy s -> tidy (attachDragEvents c s).
Proof. apply tidy_on_card. intros k. apply kept_same_body. reflexivity. Qed.

Lemma tidy_iter n (f : state -> state) (P : state -> Prop) s :
  (forall s, P s -> tidy s -> P (f s) /\ tidy (f s)) ->
  P s -> tidy s -> tidy (Nat.iter n f s).
Proof.
  intros Hf HP Ht. enough (P (Nat.iter n f s) /\ tidy (Nat.iter n f s)) by tauto.
  induction n as [| n IH]; [auto |]. cbn. destruct IH. auto.
Qed.

Lemma tidy_dragstart innerHTML c s : tidy s -> tidy (dispatch innerHTML (DragStart c) s).
Proof.
  intros Ht. cbn [dispatch]. unfold fire.
  destruct (store s !! c) as [k |] eqn:E; [| exact Ht].
  apply (tidy_iter _ _ (fun s => c < List.length (store s))); [| | exact Ht].
  - intros s' Hc Ht'. cbn [on_dragstart final]. split.
    + cbn [on_card set_store store set_draggedCard]. rewrite length_alter. exact Hc.
    + apply tidy_with_classList, tidy_set_draggedCard; [| exact Ht'].
      intros c' [= <-]. exact Hc.
  - apply lookup_lt_Some in E. exact E.
Qed.

Lemma tidy_dragend innerHTML c s : tidy s -> tidy (dispatch innerHTML (DragEnd c) s).
Proof.
  intros Ht. cbn [dispatch]. unfold fire.
  destruct (store s !! c) as [k |] eqn:E; [| exact Ht].
  apply (tidy_iter _ _ (fun _ => True)); [| exact I | exact Ht].
  intros s' _ Ht'. split; [exact I |]. unfold on_dragend.
  apply tidy_saveData, tidy_with_classList, tidy_set_draggedCard; [discriminate | exact Ht'].
Qed.

Lemma tidy_openAddModal s : tidy s -> tidy (openAddModal s).
Proof.
  intros Ht. unfold openAddModal.
  apply tidy_set_dialog; [reflexivity | reflexivity |].
  apply tidy_set_dialog; [reflexivity | reflexivity |].
  apply tidy_set_dialog; [reflexivity | reflexivity |].
  apply tidy_set_editingCard, Ht.
Qed.

Lemma tidy_closeModal s : tidy s -> tidy (closeModal s).
Proof.
  intros Ht. unfold closeModal.
  apply tidy_set_dialog; [reflexivity | reflexivity |].
  apply tidy_set_dialog; [apply Ht | apply Ht | exact Ht].
Qed.

Lemma tidy_openEditModal c s : tidy s -> tidy (final (openEditModal c s)).
Proof.
  intros Ht. unfold openEditModal.
  pose proof (tidy_set_editingCard (Some c) s Ht) as Ht0.
  set (s0 := set_editingCard (Some c) s) in *.
  destruct (store s0 !! c) as [k |] eqn:E; [| exact Ht0].
  destruct (proj1 Ht0 c k E) as (t & d & r & Hb & Hpt & Hpd).
  destruct (kept_task k t d r Hb) as [-> ->]. cbn [final].
  apply tidy_set_dialog; [apply Hpt | apply Hpd |].
  apply tidy_set_dialog; [apply Hpt | apply Hpd |].
  apply tidy_set_dialog; [apply Hpt | apply Hpd |].
  apply tidy_set_dialog; [apply Hpt | apply Ht0 | exact Ht0].
Qed.

Lemma tidy_click_update innerHTML c s : tidy s -> tidy (dispatch innerHTML (ClickUpdate c) s).
Proof.
  intros Ht. cbn [dispatch]. unfold on_click_update.
  destruct (clickable _ c s); [apply tidy_openEditModal, Ht | exact Ht].
Qed.

Lemma tidy_click_delete innerHTML c confirmed s :
  tidy s -> tidy (dispatch innerHTML (ClickDelete c confirmed) s).
Proof.
  intros Ht. cbn [dispatch]. unfold on_click_delete.
  destruct (clickable _ c s); [| exact Ht].
  destruct confirmed; [| exact Ht].
  destruct (parentElement c s) as [column |].
  - apply tidy_saveData, tidy_updateCount, tidy_remove_card, Ht.
  - apply tidy_remove_card, Ht.
Qed.

Lemma In_remove_ref c c' l : In c' (remove_ref c l) <-> In c' l /\ c' <> c.
Proof.
  unfold remove_ref. rewrite filter_In, negb_true_iff, Nat.eqb_neq. reflexivity.
Qed.

(** Where the cards of a column come from after [appendChild i c]. *)
Lemma appendChild_cards s i c column' c' :
  In column' (columns (appendChild i c s)) -> In c' (col_cards column') ->
  exists i' column,
    columns s !! i' = Some column /\ col_id column' = col_id column /\
    ((In c' (col_cards column) /\ c' <> c) \/ (c' = c /\ i' = i)).
Proof.
  intros Hin Hc'. apply list_elem_of_In, list_elem_of_lookup in Hin as [i' Hi'].
  unfold appendChild, on_column, remove_card, set_columns in Hi'. simpl columns in Hi'.
  rewrite list_lookup_alter in Hi'.
  change (map ?f ?l) with (f <$> l) in Hi'. rewrite !list_lookup_fmap in Hi'.
  destruct (decide (i = i')) as [-> | Hne];
    (destruct (columns s !! i') as [column |] eqn:E; cbn in Hi'; [| discriminate]);
    injection Hi' as <-; exists i', column; (split; [exact E |]); (split; [reflexivity |]).
  - cbn in Hc'. apply in_app_iff in Hc' as [Hc' | [<- | []]].
    + left. apply In_remove_ref, Hc'.
    + right. auto.
  - left. apply In_remove_ref, Hc'.
Qed.

(** Placing card [c] at the end of column [i], with its buttons changed by
    [g], keeps the invariant when [g] fits the card to the column. *)
Lemma tidy_place s s' i c column g :
  tidy s ->
  c < List.length (store s) ->
  columns s !! i = Some column ->
  columns s' = columns (appendChild i c s) ->
  store s' = alter g c (store s) ->
  draggedCard s' = draggedCard s -> dialog s' = dialog s -> localStorage s' = localStorage s ->
  (forall k, kept k ->
     kept (g k) /\
     (includes UPDATE_ALLOWED_COLUMNS (col_id column) = false -> has_update (g k) = false)) ->
  tidy s'.
Proof.
  intros (Hk & [Hv Hp] & Hd & Hf & Hl) Hc Hi Hcols Hst Hdr Hdi Hlo Hg.
  destruct (lookup_lt_is_Some_2 (store s) c Hc) as [k0 Hk0].
  split; [| split; [split |]; [| | split; [| split]]].
  - intros c' k' Hc'. rewrite Hst, list_lookup_alter in Hc'.
    destruct (decide (c = c')) as [<- | _]; [| eauto].
    rewrite Hk0 in Hc'. injection Hc' as <-. apply Hg. eauto.
  - intros column' c' Hin Hc'. rewrite Hst, length_alter. rewrite Hcols in Hin.
    destruct (appendChild_cards s i c column' c' Hin Hc') as (i' & y & Hy & _ & [[Hc0 _] | [-> _]]).
    + apply (Hv y c'); [| exact Hc0]. apply list_elem_of_In, list_elem_of_lookup. eauto.
    + exact Hc.
  - intros column' c' Hin Hc' Hno. rewrite Hcols in Hin.
    destruct (appendChild_cards s i c column' c' Hin Hc') as (i' & y & Hy & Hid & [[Hc0 Hne] | [-> ->]]).
    + rewrite Hst, list_lookup_alter_ne by auto.
      apply (Hp y c'); [| exact Hc0 | rewrite <- Hid; exact Hno].
      apply list_elem_of_In, list_elem_of_lookup. eauto.
    + rewrite Hst, list_lookup_alter_eq, Hk0. cbn. f_equal.
      rewrite Hi in Hy. injection Hy as <-. apply (Hg k0); [eauto |].
      rewrite <- Hid. exact Hno.
  - intros c' Hc'. rewrite Hst, length_alter. apply Hd. rewrite <- Hdr. exact Hc'.
  - unfold fields_ok. rewrite Hdi. exact Hf.
  - unfold storage_ok. rewrite Hlo. exact Hl.
Qed.

Lemma kept_updateCardButtons columnId k :
  kept k ->
  kept (with_body (fun b => updateCardButtons b columnId) k) /\
  (includes UPDATE_ALLOWED_COLUMNS columnId = false ->
   has_update (with_body (fun b => updateCardButtons b columnId) k) = false).
Proof.
  intros (t & d & r & Hb & Ht & Hd).
  assert (body (with_body (fun b => updateCardButtons b columnId) k) =
          card_layout (text_nodes t) (text_nodes d) (region_kids (fit r columnId))) as Hb'.
  { cbn [with_body body]. rewrite Hb. apply updateCardButtons_layout. }
  split.
  - exists t, d, (fit r columnId). auto.
  - intros Hno. rewrite (kept_has_update _ _ _ _ Hb'). unfold fit. rewrite Hno. reflexivity.
Qed.

Lemma tidy_drop innerHTML i s : tidy s -> tidy (dispatch innerHTML (Drop i) s).
Proof.
  intros Ht. cbn [dispatch]. unfold on_drop.
  destruct (columns s !! i) as [column |] eqn:Hi; [| exact Ht].
  pose proof (tidy_on_column i (with_col_classes (classList_remove "drag-over")) s
                (fun _ => conj eq_refl eq_refl) Ht) as Ht1.
  set (s1 := on_column i (with_col_classes (classList_remove "drag-over")) s) in *.
  destruct (draggedCard s1) as [c |] eqn:Hd; [| exact Ht1].
  apply tidy_saveData, tidy_updateCount.
  assert (columns s1 !! i = Some (with_col_classes (classList_remove "drag-over") column)) as Hi1.
  { unfold s1. rewrite columns_on_column_eq, Hi. reflexivity. }
  apply (tidy_place s1 _ i c (with_col_classes (classList_remove "drag-over") column)
           (with_body (fun b => updateCardButtons b (col_id column))) Ht1);
    try reflexivity.
  - apply Ht1. exact Hd.
  - exact Hi1.
  - intros k. apply kept_updateCardButtons.
Qed.

Section PlainText.

(** Throughout this section, the parser reads plain text as text. *)
Variable innerHTML : string -> string -> list node.
Hypothesis Hparse : parses_plain innerHTML.

Lemma template_kept t d k :
  plain t = true -> plain d = true -> body k = innerHTML t d -> kept k.
Proof.
  intros Ht Hd Hb. exists t, d, Template. rewrite Hb, (Hparse t d Ht Hd). auto.
Qed.

(** Extending the store by kept cards, with the board untouched. *)
Lemma tidy_extend s s' extra :
  tidy s ->
  store s' = store s ++ extra ->
  Forall kept extra ->
  columns s' = columns s ->
  draggedCard s' = draggedCard s -> dialog s' = dialog s -> localStorage s' = localStorage s ->
  tidy s'.
Proof.
  intros (Hk & [Hv Hp] & Hd & Hf & Hl) Hst Hex Hcols Hdr Hdi Hlo.
  split; [| split; [split |]; [| | split; [| split]]].
  - intros c k Hc. rewrite Hst in Hc. apply lookup_app_Some in Hc as [Hc | [_ Hc]]; [eauto |].
    rewrite List.Forall_forall in Hex. apply Hex.
    apply list_elem_of_In, list_elem_of_lookup. eauto.
  - intros column c Hin Hc. rewrite Hcols in Hin. rewrite Hst, length_app.
    specialize (Hv column c Hin Hc). lia.
  - intros column c Hin Hc Hno. rewrite Hcols in Hin.
    rewrite Hst, lookup_app_l by (apply (Hv column c Hin Hc)). apply (Hp column c Hin Hc Hno).
  - intros c Hc. rewrite Hdr in Hc. rewrite Hst, length_app. specialize (Hd c Hc). lia.
  - unfold fields_ok. rewrite Hdi. exact Hf.
  - unfold storage_ok. rewrite Hlo. exact Hl.
Qed.

Lemma alter_last {A} (f : A -> A) (l : list A) x :
  alter f (List.length l) (l ++ [x]) = l ++ [f x].
Proof. induction l as [| y l IH]; [reflexivity |]. cbn. f_equal. exact IH. Qed.

Lemma createCardDOM_state t d s :
  createCardDOM innerHTML t d s =
  (List.length (store s),
   set_store (fun st => st ++ [{| classList := ["card"]; draggable := true;
                                   body := innerHTML t d; drag_listeners := 1 |}]) s).
Proof.
  unfold createCardDOM, attachDragEvents, on_card, set_store. cbn [store columns draggedCard
    editingCard dialog localStorage]. rewrite alter_last. reflexivity.
Qed.

Lemma tidy_createCardDOM t d s :
  plain t = true -> plain d = true ->
  tidy s -> tidy (snd (createCardDOM innerHTML t d s)).
Proof.
  intros Ht Hd Hs. rewrite createCardDOM_state. cbn [snd].
  eapply (tidy_extend s); [exact Hs | reflexivity | | reflexivity ..].
  constructor; [| constructor]. apply (template_kept t d); auto.
Qed.

Lemma kept_set_h3 t' k :
  plain t' = true -> kept k ->
  kept (with_body (with_first (ByTag "h3") (fun e => [set_textContent t' e])) k) /\
  has_update (with_body (with_first (ByTag "h3") (fun e => [set_textContent t' e])) k) = has_update k.
Proof.
  intros Ht' (t & d & r & Hb & Ht & Hd).
  assert (body (with_body (with_first (ByTag "h3") (fun e => [set_textContent t' e])) k) =
          card_layout (text_nodes t') (text_nodes d) (region_kids r)) as Hb'.
  { cbn [with_body body]. rewrite Hb. apply layout_set_h3. }
  split; [exists t', d, r; auto |].
  rewrite (kept_has_update _ _ _ _ Hb'), (kept_has_update _ _ _ _ Hb). reflexivity.
Qed.

Lemma kept_set_p d' k :
  plain d' = true -> kept k ->
  kept (with_body (with_first (ByTag "p") (fun e => [set_textContent d' e])) k) /\
  has_update (with_body (with_first (ByTag "p") (fun e => [set_textContent d' e])) k) = has_update k.
Proof.
  intros Hd' (t & d & r & Hb & Ht & Hd).
  assert (body (with_body (with_first (ByTag "p") (fun e => [set_textContent d' e])) k) =
          card_layout (text_nodes t) (text_nodes d') (region_kids r)) as Hb'.
  { cbn [with_body body]. rewrite Hb. apply layout_set_p, querySelector_text_nodes. }
  split; [exists t, d', r; auto |].
  rewrite (kept_has_update _ _ _ _ Hb'), (kept_has_update _ _ _ _ Hb). reflexivity.
Qed.

Lemma tidy_updateCounts l s :
  tidy s -> tidy (fold_left (fun s col => updateCount col s) l s).
Proof.
  intros Ht. apply fold_left_invariant; [| exact Ht].
  intros s' col _. apply tidy_updateCount.
Qed.

Lemma todo_allowed : includes UPDATE_ALLOWED_COLUMNS "todo" = true.
Proof. reflexivity. Qed.

Lemma tidy_submit s : tidy s -> tidy (dispatch innerHTML Submit s).
Proof.
  intros Ht. cbn [dispatch]. unfold on_submit.
  pose proof (plain_trim _ (proj1 (proj1 (proj2 (proj2 (proj2 Ht)))))) as Hpt.
  pose proof (plain_trim _ (proj2 (proj1 (proj2 (proj2 (proj2 Ht)))))) as Hpd.
  set (t := trim (title_value (dialog s))) in *.
  set (d := trim (desc_value (dialog s))) in *.
  destruct (String.eqb t ""); [exact Ht |].
  assert (forall r, tidy (final r) ->
            tidy (final (r ;;; fun s =>
                         saveData (fold_left (fun s col => updateCount col s)
                                     (seq 0 (List.length (columns s))) s) ;;; fun s =>
                         Normal (closeModal s)))) as Hrest.
  { intros [s' | s'] Hs'; cbn [and_then final] in *; [| exact Hs'].
    pose proof (tidy_saveData _ (tidy_updateCounts (seq 0 (List.length (columns s'))) s' Hs')) as Hsave.
    destruct (saveData _) as [s'' | s'']; cbn [and_then final] in *; [| exact Hsave].
    apply tidy_closeModal, Hsave. }
  apply Hrest.
  destruct (editingCard s) as [c |].
  - destruct (store s !! c) as [k |] eqn:E; [| exact Ht].
    destruct (querySelector (ByTag "h3") (body k)); [| exact Ht].
    pose proof (tidy_on_card c _ s (fun k0 => kept_set_h3 t k0 Hpt) Ht) as Ht1.
    set (s1 := on_card c _ s) in *.
    destruct (k' ← store s1 !! c; querySelector (ByTag "p") (body k')); [| exact Ht1].
    cbn [final]. apply tidy_on_card; [intros k0; apply kept_set_p, Hpd | exact Ht1].
  - pose proof (tidy_createCardDOM t d s Hpt Hpd Ht) as Ht1.
    rewrite createCardDOM_state in *. cbn [snd] in Ht1.
    set (s1 := set_store _ s) in *.
    destruct (getElementById "todo" s1) as [todo |] eqn:Htodo; [| exact Ht1].
    destruct (getElementById_spec _ _ _ Htodo) as (column & Hcol & Hid).
    cbn [final].
    apply (tidy_place s1 _ todo (List.length (store s)) column (fun k => k) Ht1); try reflexivity.
    + cbn [s1 set_store store]. rewrite length_app. cbn. lia.
    + exact Hcol.
    + cbn [appendChild on_column set_columns store remove_card].
      symmetry. apply list_alter_id. reflexivity.
    + intros k Hk. split; [exact Hk |]. rewrite Hid, todo_allowed. discriminate.
Qed.

Lemma loaded_card_kept columnId x :
  plain_task x = true ->
  kept (loaded_card innerHTML columnId x) /\
  (includes UPDATE_ALLOWED_COLUMNS columnId = false ->
   has_update (loaded_card innerHTML columnId x) = false).
Proof.
  intros Hx. unfold plain_task in Hx. apply andb_true_iff in Hx as [Ht Hd].
  apply (kept_updateCardButtons columnId
           {| classList := ["card"]; draggable := true;
              body := innerHTML (title x) (desc x); drag_listeners := 1 |}).
  apply (template_kept (title x) (desc x)); auto.
Qed.

Lemma tidy_rebuild data s columnId :
  Forall (fun x => plain_task x = true) (default [] (obj_get data columnId)) ->
  tidy s -> tidy (rebuild innerHTML data s columnId).
Proof.
  intros Hplain Ht.
  destruct (getElementById columnId s) as [j |] eqn:Hj.
  2: { unfold rebuild. rewrite Hj. exact Ht. }
  destruct Ht as (Hk & [Hv Hpol] & Hd & Hf & Hl).
  destruct (getElementById_spec _ _ _ Hj) as (cj & Hcj & Hidj).
  destruct (rebuild_spec innerHTML data s columnId j Hv Hj) as (Hst & Hcols & Hv' & Hdr & Hdi & Hlo).
  set (s' := rebuild innerHTML data s columnId) in *. clearbody s'.
  set (v := default [] (obj_get data columnId)) in *.
  split; [| split; [split |]; [| | split; [| split]]].
  - intros c k Hc. rewrite Hst in Hc. apply lookup_app_Some in Hc as [Hc | [_ Hc]]; [eauto |].
    change (map ?f ?l) with (f <$> l) in Hc. apply list_lookup_fmap_Some in Hc as (x & -> & Hx).
    apply loaded_card_kept.
    rewrite List.Forall_forall in Hplain. apply Hplain.
    apply list_elem_of_In, list_elem_of_lookup. eauto.
  - exact Hv'.
  - intros column c Hin Hc Hno.
    apply list_elem_of_In, list_elem_of_lookup in Hin as [i Hi].
    rewrite Hcols, list_lookup_alter in Hi. destruct (decide (j = i)) as [<- | Hne].
    + rewrite Hcj in Hi. cbn in Hi. injection Hi as <-.
      rewrite col_id_refreshed in Hno. rewrite col_cards_refreshed in Hc.
      cbn [with_cards col_id col_cards] in Hno, Hc. rewrite Hidj in Hno.
      apply in_seq in Hc as [Hlo' Hhi].
      rewrite Hst, lookup_app_r by exact Hlo'.
      change (map ?f ?l) with (f <$> l). rewrite list_lookup_fmap.
      destruct (lookup_lt_is_Some_2 v (c - List.length (store s))) as [x Hx]; [lia |].
      rewrite Hx. cbn. f_equal.
      apply loaded_card_kept; [| exact Hno].
      rewrite List.Forall_forall in Hplain. apply Hplain.
      apply list_elem_of_In, list_elem_of_lookup. eauto.
    + assert (In column (columns s)) as Hin by (apply list_elem_of_In, list_elem_of_lookup; eauto).
      rewrite Hst, lookup_app_l by (apply (Hv column c Hin Hc)).
      apply (Hpol column c Hin Hc Hno).
  - intros c Hc. rewrite Hdr in Hc. rewrite Hst, length_app. specialize (Hd c Hc). lia.
  - unfold fields_ok. rewrite Hdi. exact Hf.
  - unfold storage_ok. rewrite Hlo. exact Hl.
Qed.

Lemma tidy_loadData s : tidy s -> tidy (loadData innerHTML s).
Proof.
  intros Ht. unfold loadData.
  destruct (localStorage s) as [data |] eqn:Hdata; [| exact Ht].
  pose proof (proj2 (proj2 (proj2 (proj2 Ht))) data Hdata) as Hplain.
  apply fold_left_invariant.
  - intros s' columnId _ Hs'. apply tidy_rebuild; [| exact Hs'].
    destruct (obj_get data columnId) as [v |] eqn:Hv; [| constructor]. cbn [default].
    apply List.Forall_forall. intros x Hx. rewrite List.Forall_forall in Hplain.
    apply Hplain. apply in_concat. exists v. split; [eapply obj_get_in; eauto | exact Hx].
  - destruct Ht as (Hk & [Hv Hpol] & Hd & Hf & Hl).
    split; [exact Hk |]. split; [| split; [exact Hd | split; [exact Hf | exact Hl]]].
    split.
    + intros column c Hin Hc. cbn [columns set_columns] in Hin.
      apply in_map_iff in Hin as (column0 & <- & _). destruct Hc.
    + intros column c Hin Hc. cbn [columns set_columns] in Hin.
      apply in_map_iff in Hin as (column0 & <- & _). destruct Hc.
Qed.

Lemma tidy_DOMContentLoaded s : tidy s -> tidy (dispatch innerHTML DOMContentLoaded s).
Proof.
  intros Ht. cbn [dispatch]. unfold on_DOMContentLoaded.
  apply fold_left_invariant; [| apply tidy_loadData; assumption].
  intros s' c _. apply tidy_attachDragEvents.
Qed.

(** Every event keeps the invariant, when what is typed is plain. *)
Lemma tidy_dispatch e s :
  plain_event e = true -> tidy s -> tidy (dispatch innerHTML e s).
Proof.
  intros He Ht. destruct e as [| c | c | i | i | i | c | c confirmed | | | | t d |].
  - apply tidy_DOMContentLoaded; assumption.
  - apply tidy_dragstart, Ht.
  - apply tidy_dragend, Ht.
  - apply tidy_on_column; [auto | exact Ht].
  - apply tidy_on_column; [auto | exact Ht].
  - apply tidy_drop, Ht.
  - apply tidy_click_update, Ht.
  - apply tidy_click_delete, Ht.
  - apply tidy_openAddModal, Ht.
  - apply tidy_closeModal, Ht.
  - apply tidy_closeModal, Ht.
  - cbn in He. apply andb_true_iff in He as [H1 H2].
    apply tidy_set_dialog; assumption.
  - apply tidy_submit; assumption.
Qed.

Lemma tidy_run es : forall s,
  Forall (fun e => plain_event e = true) es ->
  tidy s -> tidy (run innerHTML es s).
Proof.
  induction es as [| e es IH]; intros s Hes Ht; [exact Ht |].
  apply List.Forall_cons_iff in Hes as [He Hes].
  unfold run. cbn [fold_left]. apply IH; [exact Hes |].
  apply tidy_dispatch; assumption.
Qed.

(** A page without cards is tidy when its dialog fields and its stored
    snapshot are plain text. *)
Lemma tidy_without_cards s :
  store s = [] ->
  (forall column, In column (columns s) -> col_cards column = []) ->
  draggedCard s = None ->
  fields_ok s -> storage_ok s -> tidy s.
Proof.
  intros Hst Hcols Hd Hf Hl.
  split; [| split; [split |]; [| | split; [| split]]]; try assumption.
  - intros c k Hc. rewrite Hst in Hc. discriminate.
  - intros column c Hin Hc. rewrite (Hcols column Hin) in Hc. destruct Hc.
  - intros column c Hin Hc. rewrite (Hcols column Hin) in Hc. destruct Hc.
  - intros c Hc. rewrite Hd in Hc. discriminate.
Qed.

(** X2: the button policy on plain text: from a page that holds no cards of its
    own, with plain text in the stored snapshot, and along every sequence of
    events in which plain text is typed, no card in a column outside the
    allow-list carries an update affordance, under every parser that reads
    plain text as text. *)
Theorem policy_invariant_plain es s :
  store s = [] ->
  (forall column, In column (columns s) -> col_cards column = []) ->
  draggedCard s = None ->
  fields_ok s -> storage_ok s ->
  Forall (fun e => plain_event e = true) es ->
  policy_holds (run innerHTML es s).
Proof.
  intros Hst Hcols Hd Hf Hl Hes.
  apply (tidy_run es s Hes).
  apply tidy_without_cards; assumption.
Qed.

End PlainText.

(** * The ids of the columns never change *)

Lemma ids_on_column i f s :
  (forall column, col_id (f column) = col_id column) ->
  map col_id (columns (on_column i f s)) = map col_id (columns s).
Proof. intros Hf. apply map_col_id_alter, Hf. Qed.

Lemma ids_remove_card c s :
  map col_id (columns (remove_card c s)) = map col_id (columns s).
Proof. cbn [remove_card set_columns columns]. rewrite map_map. reflexivity. Qed.

Lemma ids_appendChild i c s :
  map col_id (columns (appendChild i c s)) = map col_id (columns s).
Proof.
  unfold appendChild. rewrite ids_on_column by reflexivity. apply ids_remove_card.
Qed.

Lemma ids_updateCount i s :
  map col_id (columns (updateCount i s)) = map col_id (columns s).
Proof. apply ids_on_column, col_id_refreshed. Qed.

Lemma ids_saveData s : map col_id (columns (final (saveData s))) = map col_id (columns s).
Proof. unfold saveData. destruct (collect _ _ _); reflexivity. Qed.

Lemma ids_fold {A} (f : state -> A -> state) (l : list A) s :
  (forall s x, map col_id (columns (f s x)) = map col_id (columns s)) ->
  map col_id (columns (fold_left f l s)) = map col_id (columns s).
Proof.
  intros Hf. apply (fold_left_invariant (fun s' => map col_id (columns s') = map col_id (columns s)));
    [| reflexivity].
  intros s' x _ Hs'. rewrite Hf. exact Hs'.
Qed.

Lemma ids_iter n (f : state -> state) s :
  (forall s, map col_id (columns (f s)) = map col_id (columns s)) ->
  map col_id (columns (Nat.iter n f s)) = map col_id (columns s).
Proof.
  intros Hf. induction n as [| n IH]; [reflexivity |]. cbn. rewrite Hf. exact IH.
Qed.

Lemma ids_rebuild innerHTML data s columnId :
  map col_id (columns (rebuild innerHTML data s columnId)) = map col_id (columns s).
Proof.
  unfold rebuild. destruct (getElementById columnId s) as [j |]; [| reflexivity].
  rewrite ids_updateCount, ids_fold.
  - apply ids_on_column. reflexivity.
  - intros s' x. unfold load_card. rewrite createCardDOM_state.
    change (columns (on_card ?c ?f ?s0)) with (columns s0).
    rewrite ids_appendChild. reflexivity.
Qed.

Lemma ids_loadData innerHTML s :
  map col_id (columns (loadData innerHTML s)) = map col_id (columns s).
Proof.
  unfold loadData. destruct (localStorage s) as [data |]; [| reflexivity].
  rewrite ids_fold by (intros; apply ids_rebuild).
  cbn [columns set_columns]. rewrite map_map. reflexivity.
Qed.

Lemma ids_dispatch innerHTML e s :
  map col_id (columns (dispatch innerHTML e s)) = map col_id (columns s).
Proof.
  destruct e as [| c | c | i | i | i | c | c confirmed | | | | t d |];
    cbn [dispatch]; try reflexivity.
  - unfold on_DOMContentLoaded. rewrite ids_fold by reflexivity. apply ids_loadData.
  - unfold fire. destruct (store s !! c); [| reflexivity]. apply ids_iter. reflexivity.
  - unfold fire. destruct (store s !! c); [| reflexivity]. apply ids_iter.
    intros s'. unfold on_dragend. rewrite ids_saveData. reflexivity.
  - apply ids_on_column. reflexivity.
  - apply ids_on_column. reflexivity.
  - unfold on_drop. destruct (columns s !! i) as [column |]; [| reflexivity].
    destruct (draggedCard _) as [c |].
    + rewrite ids_saveData, ids_updateCount.
      change (columns (on_card ?c ?f ?s0)) with (columns s0).
      rewrite ids_appendChild. apply ids_on_column. reflexivity.
    + apply ids_on_column. reflexivity.
  - unfold on_click_update. destruct (clickable _ _ _); [| reflexivity].
    unfold openEditModal. destruct (_ !! _) as [k |]; [| reflexivity].
    destruct (read_text (ByTag "h3") k); [| reflexivity].
    destruct (read_text (ByTag "p") k); reflexivity.
  - unfold on_click_delete. destruct (clickable _ _ _); [| reflexivity].
    destruct confirmed; [| reflexivity].
    destruct (parentElement c s).
    + rewrite ids_saveData, ids_updateCount. apply ids_remove_card.
    + apply ids_remove_card.
  - unfold on_submit. destruct (String.eqb _ ""); [reflexivity |].
    assert (forall r, map col_id (columns (final r)) = map col_id (columns s) ->
              map col_id (columns (final (r ;;; fun s =>
                  saveData (fold_left (fun s col => updateCount col s)
                              (seq 0 (List.length (columns s))) s) ;;; fun s =>
                  Normal (closeModal s)))) = map col_id (columns s)) as Hrest.
    { intros [s' | s'] Hs'; cbn [and_then final] in *; [| exact Hs'].
      pose proof (ids_saveData (fold_left (fun s col => updateCount col s)
                                  (seq 0 (List.length (columns s'))) s')) as Hsave.
      rewrite ids_fold in Hsave by (intros; apply ids_updateCount).
      destruct (saveData _) as [s'' | s'']; cbn [and_then final] in *; rewrite <- Hs', <- Hsave;
        reflexivity. }
    apply Hrest. destruct (editingCard s) as [c |].
    + destruct (store s !! c) as [k |]; [| reflexivity].
      destruct (querySelector (ByTag "h3") (body k)); [| reflexivity].
      destruct (_ ≫= _); reflexivity.
    + rewrite createCardDOM_state.
      destruct (getElementById "todo" _) as [todo |]; [| reflexivity].
      cbn [final]. rewrite ids_appendChild. reflexivity.
Qed.

Lemma ids_run innerHTML es : forall s,
  map col_id (columns (run innerHTML es s)) = map col_id (columns s).
Proof.
  induction es as [| e es IH]; intros s; [reflexivity |].
  unfold run. cbn [fold_left]. fold (run innerHTML es (dispatch innerHTML e s)).
  rewrite IH. apply ids_dispatch.
Qed.

(** * The round trip along plain runs *)




(** The sample page: three empty columns with distinct ids, nothing stored. *)
Lemma empty_page_fresh :
  layout_ok empty_page /\ store empty_page = [] /\
  (forall column, In column (columns empty_page) -> col_cards column = []) /\
  draggedCard empty_page = None /\ fields_ok empty_page /\ storage_ok empty_page.
Proof.
  split; [| split; [reflexivity | split; [| split; [reflexivity | split]]]].
  - split.
    + cbn. repeat (apply NoDup_cons; split; [rewrite list_elem_of_In; cbn; intuition discriminate |]).
      apply NoDup_nil. exact I.
    + cbn. intuition discriminate.
  - cbn. intros column [<- | [<- | [<- | []]]]; reflexivity.
  - split; reflexivity.
  - intros data [=].
Qed.

(** The two theorems on plain text at the sample page, where task A is added
    and dragged to done. *)
Lemma policy_invariant_plain_witness :
  policy_holds (run sample_innerHTML (add_A ++ drag_A_done) empty_page).
Proof.
  destruct empty_page_fresh as (_ & H1 & H2 & H3 & H4 & H5).
  apply policy_invariant_plain; try assumption.
  - exact sample_parses_plain.
  - repeat constructor.
Defined.


(** * The listeners one by one *)

(** The drop listener and the button policy at the sample page. *)
Lemma updateCardButtons_fits_witness :
  at_most_one_update (card_template "A" "x") = true /\
  matches_policy (updateCardButtons (card_template "A" "x") "done") "done" = true.
Proof.
  split; [reflexivity |].
  apply (updateCardButtons_fits (card_template "A" "x") "done"). reflexivity.
Defined.


(** ** Groundwork: every counter refreshed *)

Lemma fold_alter_lookup {A} (f : A -> A) (ixs : list nat) : forall (l : list A) j,
  NoDup ixs ->
  fold_left (fun l i => alter f i l) ixs l !! j =
  if existsb (Nat.eqb j) ixs then f <$> l !! j else l !! j.
Proof.
  induction ixs as [| i ixs IH]; intros l j Hnd; [reflexivity |].
  apply NoDup_cons in Hnd as [Hi Hnd]. cbn [fold_left existsb].
  rewrite (IH _ _ Hnd).
  destruct (Nat.eqb_spec j i) as [-> | Hne]; cbn [orb].
  - replace (existsb (Nat.eqb i) ixs) with false.
    + apply list_lookup_alter_eq.
    + symmetry. apply not_true_is_false. intros H.
      apply existsb_exists in H as (x & Hx & Hxi). apply Nat.eqb_eq in Hxi. subst x.
      apply Hi, list_elem_of_In, Hx.
  - rewrite list_lookup_alter_ne by auto. reflexivity.
Qed.

Lemma alter_all {A} (f : A -> A) (l : list A) :
  fold_left (fun l i => alter f i l) (seq 0 (List.length l)) l = map f l.
Proof.
  apply list_eq. intros j. rewrite fold_alter_lookup by apply NoDup_seq.
  rewrite list_lookup_fmap.
  destruct (existsb (Nat.eqb j) (seq 0 (List.length l))) eqn:E; [reflexivity |].
  destruct (l !! j) as [x |] eqn:Hj; [| reflexivity].
  apply lookup_lt_Some in Hj.
  assert (existsb (Nat.eqb j) (seq 0 (List.length l)) = true) as E'.
  { apply existsb_exists. exists j. split; [apply in_seq; lia | apply Nat.eqb_refl]. }
  congruence.
Qed.

Lemma updateCounts_columns ixs : forall s,
  fold_left (fun s col => updateCount col s) ixs s =
  set_columns (fun cols => fold_left (fun l i => alter refreshed i l) ixs cols) s.
Proof.
  induction ixs as [| i ixs IH]; intros s.
  - destruct s; reflexivity.
  - cbn [fold_left]. rewrite IH. reflexivity.
Qed.

(** The loop [columns.forEach(col => updateCount(col))]. *)
Lemma updateCounts_all s :
  fold_left (fun s col => updateCount col s) (seq 0 (List.length (columns s))) s =
  set_columns (map refreshed) s.
Proof.
  rewrite updateCounts_columns. unfold set_columns. rewrite alter_all. reflexivity.
Qed.


(** X5: the columns are fixed when the script starts: along every run, under
    every parser, their number and their ids in order stay what they were. *)
Theorem column_ids_fixed innerHTML es s :
  map col_id (columns (run innerHTML es s)) = map col_id (columns s) /\
  List.length (columns (run innerHTML es s)) = List.length (columns s).
Proof.
  pose proof (ids_run innerHTML es s) as H. split; [exact H |].
  rewrite <- (length_map col_id (columns (run innerHTML es s))), H. apply length_map.
Qed.

Lemma alter_twice {A} (f g : A -> A) i (l : list A) :
  alter f i (alter g i l) = alter (fun x => f (g x)) i l.
Proof.
  revert i. induction l as [| x l IH]; intros [| i]; try reflexivity.
  cbn. f_equal. apply IH.
Qed.


(** ** The submit listener *)

Section Submit.

Variable innerHTML : string -> string -> list node.








End Submit.

(** ** Dragging a card *)

Lemma classList_add_twice c cs :
  classList_add c (classList_add c cs) = classList_add c cs.
Proof.
  unfold classList_add. destruct (has_class c cs) eqn:E; [rewrite E; reflexivity |].
  unfold has_class in *. rewrite existsb_app. cbn. rewrite String.eqb_refl, orb_true_r.
  reflexivity.
Qed.


Lemma alter_again {A} (f : A -> A) i (l : list A) :
  (forall x, f (f x) = f x) -> alter f i (alter f i l) = alter f i l.
Proof.
  intros Hf. rewrite alter_twice. apply list_alter_ext; [| reflexivity].
  intros x _. apply Hf.
Qed.

Lemma iter_again {A} (f : A -> A) n x :
  (forall x, f (f x) = f x) -> Nat.iter (S n) f x = f x.
Proof.
  intros Hf. induction n as [| n IH]; [reflexivity |].
  change (Nat.iter (S (S n)) f x) with (f (Nat.iter (S n) f x)). rewrite IH. apply Hf.
Qed.



(** X9: [dragstart] on a card with at least one pair of drag listeners makes
    it the dragged card and gives it the class [dragging]; with several
    pairs registered (a card rebuilt from storage has two) the outcome is
    that of one. *)
Theorem dragstart_marks_card innerHTML s c k :
  store s !! c = Some k ->
  0 < drag_listeners k ->
  dispatch innerHTML (DragStart c) s =
  on_card c (with_classList (classList_add "dragging")) (set_draggedCard (Some c) s).
Proof.
  intros Hk Hn. cbn [dispatch]. unfold fire. rewrite Hk.
  destruct (drag_listeners k) as [| n]; [lia |].
  rewrite iter_again; [reflexivity |].
  intros x. unfold on_dragstart, final, on_card, set_store, set_draggedCard. cbn.
  f_equal. apply alter_again. intros k'. unfold with_classList. cbn.
  f_equal. apply classList_add_twice.
Qed.



(** ** Drop without a dragged card *)

Lemma alter_out {A} (f : A -> A) i (l : list A) : l !! i = None -> alter f i l = l.
Proof.
  revert i. induction l as [| x l IH]; intros [| i] H; try reflexivity; [discriminate |].
  cbn. f_equal. apply IH, H.
Qed.

Lemma classList_remove_gone c cs : ~ In c (classList_remove c cs).
Proof.
  unfold classList_remove. intros H. apply filter_In in H as [_ H].
  rewrite String.eqb_refl in H. discriminate.
Qed.

(** X11: a drop while no card is being dragged (something else was dragged
    over the board) does what [dragleave] does: the column loses the class
    [drag-over], its cards and its counter are as before, nothing is moved
    and nothing is saved. *)
Theorem drop_without_drag i s :
  draggedCard s = None ->
  on_drop i s = Normal (on_dragleave i s) /\
  forall column, columns (on_dragleave i s) !! i = Some column ->
    ~ In "drag-over" (col_classes column) /\
    exists column0, columns s !! i = Some column0 /\
      col_cards column = col_cards column0 /\ count_span column = count_span column0.
Proof.
  intros Hd. split.
  - unfold on_drop, on_dragleave. destruct (columns s !! i) as [column |] eqn:Hi.
    + cbn [draggedCard on_column set_columns]. rewrite Hd. reflexivity.
    + unfold on_column, set_columns. rewrite (alter_out _ _ _ Hi). destruct s; reflexivity.
  - intros column. unfold on_dragleave. rewrite columns_on_column_eq.
    destruct (columns s !! i) as [column0 |]; [| discriminate].
    intros [= <-]. split; [apply classList_remove_gone |].
    exists column0. auto.
Qed.

(** ** Deleting a card *)


(** ** When [saveData] throws *)





(** ** What writes to storage *)

Lemma localStorage_iter (f : state -> state) n :
  (forall s, localStorage (f s) = localStorage s) ->
  forall s, localStorage (Nat.iter n f s) = localStorage s.
Proof.
  intros Hf s. induction n as [| n IH]; [reflexivity |].
  change (Nat.iter (S n) f s) with (f (Nat.iter n f s)). rewrite Hf. exact IH.
Qed.

Lemma localStorage_rebuild innerHTML data s columnId :
  localStorage (rebuild innerHTML data s columnId) = localStorage s.
Proof.
  unfold rebuild. destruct (getElementById columnId s) as [j |]; [| reflexivity].
  unfold updateCount. cbn [localStorage on_column set_columns].
  apply (fold_left_invariant (fun s' => localStorage s' = localStorage s)); [| reflexivity].
  intros s' x _ Hs'. rewrite <- Hs'. unfold load_card, createCardDOM. reflexivity.
Qed.

Lemma localStorage_loadData innerHTML s :
  localStorage (loadData innerHTML s) = localStorage s.
Proof.
  unfold loadData. destruct (localStorage s) as [data |] eqn:E; [| exact E].
  apply (fold_left_invariant (fun s' => localStorage s' = Some data)); [| exact E].
  intros s' x _ Hs'. rewrite localStorage_rebuild. exact Hs'.
Qed.

(** X14: storage is written by four listeners only: [dragend], [drop], a
    confirmed delete and [submit].  Every other event, loading the page
    included, leaves the stored snapshot as it was. *)
Theorem storage_written_by_saving_events innerHTML e s :
  saves e = false ->
  localStorage (dispatch innerHTML e s) = localStorage s.
Proof.
  destruct e as [| c | c | i | i | i | c | c [|] | | | | t d |]; try discriminate; intros _;
    cbn [dispatch]; try reflexivity.
  - unfold on_DOMContentLoaded.
    transitivity (localStorage (loadData innerHTML s)); [| apply localStorage_loadData].
    apply (fold_left_invariant (fun s' => localStorage s' = localStorage (loadData innerHTML s)));
      [| reflexivity].
    intros s' x _ Hs'. exact Hs'.
  - unfold fire. destruct (store s !! c) as [k |]; [| reflexivity].
    apply localStorage_iter. intros s'. reflexivity.
  - unfold on_click_update, openEditModal.
    destruct (clickable _ c s); [| reflexivity].
    cbn [store set_editingCard]. destruct (store s !! c) as [k |]; [| reflexivity].
    destruct (read_text (ByTag "h3") k); [| reflexivity].
    destruct (read_text (ByTag "p") k); reflexivity.
  - unfold on_click_delete. destruct (clickable _ c s); reflexivity.
Qed.

(** ** The two global references *)

(** What the listeners share: [saveData], the loops of [loadData] and of
    [submit] keep both references. *)
Lemma globals_saveData s :
  editingCard (final (saveData s)) = editingCard s /\
  draggedCard (final (saveData s)) = draggedCard s.
Proof. unfold saveData. destruct (collect _ _ _); split; reflexivity. Qed.

Lemma globals_fold {A} (f : state -> A -> state) (l : list A) :
  (forall s x, editingCard (f s x) = editingCard s /\ draggedCard (f s x) = draggedCard s) ->
  forall s, editingCard (fold_left f l s) = editingCard s /\
            draggedCard (fold_left f l s) = draggedCard s.
Proof.
  intros Hf s.
  apply (fold_left_invariant
           (fun s' => editingCard s' = editingCard s /\ draggedCard s' = draggedCard s));
    [| split; reflexivity].
  intros s' x _ [H1 H2]. destruct (Hf s' x) as [H3 H4]. split; congruence.
Qed.

Lemma globals_rebuild innerHTML data s columnId :
  editingCard (rebuild innerHTML data s columnId) = editingCard s /\
  draggedCard (rebuild innerHTML data s columnId) = draggedCard s.
Proof.
  unfold rebuild. destruct (getElementById columnId s) as [j |]; [| split; reflexivity].
  unfold updateCount. cbn [editingCard draggedCard on_column set_columns].
  apply (globals_fold (load_card innerHTML j columnId)
           (default [] (obj_get data columnId)) (fun s' x => conj eq_refl eq_refl)
           (on_column j (with_cards (fun _ => [])) s)).
Qed.

Lemma globals_loadData innerHTML s :
  editingCard (loadData innerHTML s) = editingCard s /\
  draggedCard (loadData innerHTML s) = draggedCard s.
Proof.
  unfold loadData. destruct (localStorage s) as [data |]; [| split; reflexivity].
  apply (globals_fold (rebuild innerHTML data) (obj_keys data)
           (globals_rebuild innerHTML data)
           (set_columns (map (with_cards (fun _ => []))) s)).
Qed.

Lemma globals_loaded innerHTML s :
  editingCard (on_DOMContentLoaded innerHTML s) = editingCard s /\
  draggedCard (on_DOMContentLoaded innerHTML s) = draggedCard s.
Proof.
  unfold on_DOMContentLoaded. destruct (globals_loadData innerHTML s) as [H1 H2].
  rewrite <- H1, <- H2. apply globals_fold. intros s' c. split; reflexivity.
Qed.

Lemma globals_submit innerHTML s :
  editingCard (final (on_submit innerHTML s)) = editingCard s /\
  draggedCard (final (on_submit innerHTML s)) = draggedCard s.
Proof.
  unfold on_submit. destruct (String.eqb _ ""); [split; reflexivity |].
  assert (forall r,
            editingCard (final r) = editingCard s /\ draggedCard (final r) = draggedCard s ->
            let r' := r ;;; fun s =>
                saveData (fold_left (fun s col => updateCount col s)
                            (seq 0 (List.length (columns s))) s) ;;; fun s =>
                Normal (closeModal s) in
            editingCard (final r') = editingCard s /\ draggedCard (final r') = draggedCard s)
    as Hrest.
  { intros [s' | s'] Hs'; cbn [and_then final] in *; [| exact Hs'].
    rewrite updateCounts_all.
    destruct (globals_saveData (set_columns (map refreshed) s')) as [H1 H2].
    destruct (saveData _) as [s'' | s''];
      cbn [and_then final closeModal editingCard draggedCard set_dialog] in *;
      rewrite H1, H2; exact Hs'. }
  apply Hrest. destruct (editingCard s) as [c |] eqn:He.
  - destruct (store s !! c) as [k |]; [| split; [exact He | reflexivity]].
    destruct (querySelector (ByTag "h3") (body k)); [| split; [exact He | reflexivity]].
    destruct (_ ≫= _); split; try exact He; reflexivity.
  - rewrite createCardDOM_state.
    destruct (getElementById "todo" _) as [todo |]; split; try exact He; reflexivity.
Qed.

Lemma iter_keeps {A B} (p : A -> B) (f : A -> A) n :
  (forall s, p (f s) = p s) -> forall s, p (Nat.iter n f s) = p s.
Proof.
  intros Hf s. induction n as [| n IH]; [reflexivity |].
  change (Nat.iter (S n) f s) with (f (Nat.iter n f s)). rewrite Hf. exact IH.
Qed.

(** X15: the edit target is assigned by two listeners only: the click on an
    update button and the click on the add button.  Closing the dialog,
    submitting the form, deleting the card that is the edit target: none of
    them clears it. *)
Theorem edit_target_set_by_two_events innerHTML e s :
  retargets e = false ->
  editingCard (dispatch innerHTML e s) = editingCard s.
Proof.
  destruct e as [| c | c | i | i | i | c | c confirmed | | | | t d |]; try discriminate;
    intros _; cbn [dispatch]; try reflexivity.
  - apply globals_loaded.
  - unfold fire. destruct (store s !! c) as [k |]; [| reflexivity].
    apply (iter_keeps editingCard). reflexivity.
  - unfold fire. destruct (store s !! c) as [k |]; [| reflexivity].
    apply (iter_keeps editingCard). intros s'. unfold on_dragend.
    match goal with |- context [saveData ?x] => destruct (globals_saveData x) as [H _]; rewrite H end.
    reflexivity.
  - unfold on_drop. destruct (columns s !! i) as [column |]; [| reflexivity].
    cbn [draggedCard on_column set_columns]. destruct (draggedCard s) as [c |]; [| reflexivity].
    match goal with |- context [saveData ?x] => destruct (globals_saveData x) as [H _]; rewrite H end.
    reflexivity.
  - unfold on_click_delete. destruct (clickable _ _ _); [| reflexivity].
    destruct confirmed; [| reflexivity].
    destruct (parentElement c s) as [column |]; [| reflexivity].
    match goal with |- context [saveData ?x] => destruct (globals_saveData x) as [H _]; rewrite H end.
    reflexivity.
  - apply globals_submit.
Qed.

(** X16: the dragged card is assigned by [dragstart] and [dragend] only; in
    particular a drop leaves it set, and so does deleting the card. *)
Theorem dragged_card_set_by_two_events innerHTML e s :
  drags e = false ->
  draggedCard (dispatch innerHTML e s) = draggedCard s.
Proof.
  destruct e as [| c | c | i | i | i | c | c confirmed | | | | t d |]; try discriminate;
    intros _; cbn [dispatch]; try reflexivity.
  - apply globals_loaded.
  - unfold on_drop. destruct (columns s !! i) as [column |]; [| reflexivity].
    cbn [draggedCard on_column set_columns]. destruct (draggedCard s) as [c |] eqn:Hd; [| exact Hd].
    match goal with |- context [saveData ?x] => destruct (globals_saveData x) as [_ H]; rewrite H end.
    exact Hd.
  - unfold on_click_update, openEditModal. destruct (clickable _ _ _); [| reflexivity].
    cbn [store set_editingCard]. destruct (store s !! c) as [k |]; [| reflexivity].
    destruct (read_text (ByTag "h3") k); [| reflexivity].
    destruct (read_text (ByTag "p") k); reflexivity.
  - unfold on_click_delete. destruct (clickable _ _ _); [| reflexivity].
    destruct confirmed; [| reflexivity].
    destruct (parentElement c s) as [column |]; [| reflexivity].
    match goal with |- context [saveData ?x] => destruct (globals_saveData x) as [_ H]; rewrite H end.
    reflexivity.
  - apply globals_submit.
Qed.

(** ** Opening the edit dialog *)

Lemma alter_fixed {A} (f : A -> A) i (l : list A) x :
  l !! i = Some x -> f x = x -> alter f i l = l.
Proof.
  intros Hx Hf. rewrite (list_alter_ext f (fun y => y) l l i).
  - apply list_alter_id. reflexivity.
  - intros y Hy. congruence.
  - reflexivity.
Qed.

(** The click on the update button of a card of the board that is laid out
    as the template. *)
Lemma on_click_update_layout s c k column t d acts :
  parentElement c s = Some column ->
  store s !! c = Some k ->
  body k = card_layout (text_nodes t) (text_nodes d) acts ->
  querySelector (ByClass "update") acts <> None ->
  on_click_update c s =
  Normal (set_dialog (fun m => {| overlay_classes := classList_remove "hidden" (overlay_classes m);
                                  title_value := t; desc_value := d;
                                  modalTitle := "Edit Task";
                                  modalSubmitBtn := "Save Changes" |})
            (set_editingCard (Some c) s)).
Proof.
  intros Hp Hk Hb Hu. unfold on_click_update, clickable. rewrite Hp, Hk, Hb.
  rewrite layout_update by apply querySelector_text_nodes.
  destruct (querySelector (ByClass "update") acts); [| contradiction]. cbn [is_some].
  unfold openEditModal. cbn [store set_editingCard]. rewrite Hk.
  unfold read_text. rewrite Hb, layout_h3, layout_p by apply querySelector_text_nodes.
  cbn [option_map]. rewrite !textContent_text_nodes. reflexivity.
Qed.

(** X17: a click on the update button of a card of the board that is laid
    out as the template makes the card the edit target, fills the two fields
    with the title and the description of the card, relabels the dialog and
    shows it; the board, the cards and storage are not touched. *)
Theorem click_update_prefills s c k column t d acts :
  parentElement c s = Some column ->
  store s !! c = Some k ->
  body k = card_layout (text_nodes t) (text_nodes d) acts ->
  querySelector (ByClass "update") acts <> None ->
  let s' := final (on_click_update c s) in
  editingCard s' = Some c /\
  title_value (dialog s') = t /\ desc_value (dialog s') = d /\
  modalTitle (dialog s') = "Edit Task" /\ modalSubmitBtn (dialog s') = "Save Changes" /\
  ~ In "hidden" (overlay_classes (dialog s')) /\
  columns s' = columns s /\ store s' = store s /\ localStorage s' = localStorage s.
Proof.
  intros Hp Hk Hb Hu. cbv zeta.
  rewrite (on_click_update_layout s c k column t d acts Hp Hk Hb Hu). cbn.
  repeat match goal with |- _ /\ _ => split end; try reflexivity.
  apply classList_remove_gone.
Qed.


(** ** Button visibility on a card of the template *)

(** X19: on a card laid out as the template, in each of the three states
    its action region can be in, [updateCardButtons] leaves the title, the
    description and the one delete button as they are, and leaves exactly
    one update button when the column id is on the allow-list and none
    otherwise. *)
Theorem updateCardButtons_keeps_texts t d r columnId :
  let b := updateCardButtons (card_layout (text_nodes t) (text_nodes d) (region_kids r)) columnId in
  option_map textContent (querySelector (ByTag "h3") b) = Some t /\
  option_map textContent (querySelector (ByTag "p") b) = Some d /\
  querySelector (ByClass "delete") b = Some delete_button /\
  count_in (ByClass "delete") b = 1 /\
  count_in (ByClass "update") b = (if includes UPDATE_ALLOWED_COLUMNS columnId then 1 else 0).
Proof.
  cbv zeta. rewrite updateCardButtons_layout.
  rewrite layout_h3, layout_p by apply querySelector_text_nodes.
  cbn [option_map]. rewrite !textContent_text_nodes.
  split; [reflexivity |]. split; [reflexivity |].
  unfold fit, card_layout, text_nodes.
  destruct (includes UPDATE_ALLOWED_COLUMNS columnId), r, (String.eqb t ""), (String.eqb d "");
    repeat split; reflexivity.
Qed.

(** ** Drag listeners after the page has loaded *)

Lemma attach_all l : forall s c k,
  store s !! c = Some k ->
  let s' := fold_left (fun s c => attachDragEvents c s) l s in
  exists k', store s' !! c = Some k' /\
    classList k' = classList k /\ draggable k' = draggable k /\ body k' = body k /\
    drag_listeners k' = drag_listeners k + count_occ Nat.eq_dec l c.
Proof.
  induction l as [| x l IH]; intros s c k Hk; cbv zeta.
  - exists k. cbn. rewrite Nat.add_0_r. auto.
  - cbn [fold_left count_occ]. unfold attachDragEvents at 2.
    destruct (Nat.eq_dec x c) as [-> | Hne].
    + destruct (IH (on_card c with_listener s) c (with_listener k)) as (k' & H1 & H2 & H3 & H4 & H5).
      { cbn [store on_card set_store]. rewrite list_lookup_alter_eq, Hk. reflexivity. }
      exists k'. split; [exact H1 |]. cbn in H2, H3, H4, H5.
      repeat split; try assumption. lia.
    + apply (IH (on_card x with_listener s) c k).
      cbn [store on_card set_store]. rewrite list_lookup_alter_ne by exact Hne. exact Hk.
Qed.

Lemma attach_all_columns l : forall s,
  columns (fold_left (fun s c => attachDragEvents c s) l s) = columns s.
Proof.
  intros s. apply (fold_left_invariant (fun s' => columns s' = columns s)); [| reflexivity].
  intros s' c _ H. exact H.
Qed.

(** X20: when nothing is stored, loading the page leaves the board as it
    is and gives every card one more pair of drag listeners for each place
    it has on the board; a card in no column gets none. *)
Theorem first_load_attaches_listeners innerHTML s c k :
  localStorage s = None ->
  store s !! c = Some k ->
  let s' := dispatch innerHTML DOMContentLoaded s in
  columns s' = columns s /\
  exists k', store s' !! c = Some k' /\
    classList k' = classList k /\ draggable k' = draggable k /\ body k' = body k /\
    drag_listeners k' = drag_listeners k + count_occ Nat.eq_dec (board_cards s) c.
Proof.
  intros Hl Hk. cbv zeta. cbn [dispatch]. unfold on_DOMContentLoaded, loadData. rewrite Hl.
  split; [apply attach_all_columns |]. apply attach_all, Hk.
Qed.

(** The board while [loadData] runs. *)
Lemma in_board_cards s c :
  In c (board_cards s) <-> exists column, In column (columns s) /\ In c (col_cards column).
Proof.
  unfold board_cards. rewrite in_concat. split.
  - intros (l & Hl & Hc). apply in_map_iff in Hl as (column & <- & Hin). eauto.
  - intros (column & Hin & Hc). exists (col_cards column). split; [apply in_map, Hin | exact Hc].
Qed.

Lemma board_rebuilt (f : column -> column) fresh cols : forall j,
  (forall column, col_cards (f column) = fresh) ->
  NoDup fresh ->
  (forall c, In c fresh -> ~ In c (List.concat (map col_cards cols))) ->
  NoDup (List.concat (map col_cards cols)) ->
  NoDup (List.concat (map col_cards (alter f j cols))) /\
  forall c, In c (List.concat (map col_cards (alter f j cols))) ->
            In c fresh \/ In c (List.concat (map col_cards cols)).
Proof.
  induction cols as [| column rest IH]; intros j Hf Hnd Hfresh Hcols.
  - split; [exact Hcols | auto].
  - cbn [map List.concat] in Hcols, Hfresh. apply NoDup_app in Hcols as (H1 & H2 & H3).
    destruct j as [| j].
    + cbn [alter list_alter map List.concat]. change (list_alter f 0 ?l) with (alter f 0 l).
      rewrite Hf. split.
      * apply NoDup_app. split; [exact Hnd |]. split; [| exact H3].
        intros c Hc Hc'. apply list_elem_of_In in Hc, Hc'.
        apply (Hfresh c Hc). apply in_or_app. right. exact Hc'.
      * intros c Hc. apply in_app_or in Hc as [Hc | Hc]; [left; exact Hc |].
        right. apply in_or_app. right. exact Hc.
    + change (alter f (S j) (column :: rest)) with (column :: alter f j rest).
      cbn [map List.concat].
      destruct (IH j Hf Hnd) as [IH1 IH2]; [| exact H3 |].
      { intros c Hc Hc'. apply (Hfresh c Hc). apply in_or_app. right. exact Hc'. }
      split.
      * apply NoDup_app. split; [exact H1 |]. split; [| exact IH1].
        intros c Hc Hc'. apply list_elem_of_In in Hc'. destruct (IH2 c Hc') as [Hc'' | Hc''].
        -- apply (Hfresh c Hc''). apply in_or_app. left. apply list_elem_of_In, Hc.
        -- apply (H2 c Hc). apply list_elem_of_In, Hc''.
      * intros c Hc. apply in_app_or in Hc as [Hc | Hc].
        -- right. apply in_or_app. left. exact Hc.
        -- destruct (IH2 c Hc) as [Hc' | Hc']; [left; exact Hc' |].
           right. apply in_or_app. right. exact Hc'.
Qed.

Lemma board_cleared cols :
  List.concat (map col_cards (map (with_cards (fun _ => [])) cols)) = [].
Proof. induction cols as [| column rest IH]; [reflexivity | exact IH]. Qed.

Lemma freshly_built_cleared s :
  freshly_built (set_columns (map (with_cards (fun _ => []))) s).
Proof.
  assert (board_cards (set_columns (map (with_cards (fun _ => []))) s) = []) as E
      by apply board_cleared.
  split; [| split].
  - intros column c Hin Hc. exfalso.
    assert (In c (board_cards (set_columns (map (with_cards (fun _ => []))) s))) as H
        by (apply in_board_cards; eauto).
    rewrite E in H. destruct H.
  - rewrite E. apply NoDup_nil. exact I.
  - rewrite E. intros c [].
Qed.

Lemma freshly_built_rebuild innerHTML data s columnId :
  freshly_built s -> freshly_built (rebuild innerHTML data s columnId).
Proof.
  intros (Hv & Hnd & Hone).
  destruct (getElementById columnId s) as [j |] eqn:Hj.
  2: { unfold rebuild. rewrite Hj. split; [exact Hv | split; assumption]. }
  destruct (rebuild_spec innerHTML data s columnId j Hv Hj) as (Hst & Hcols & Hv' & _).
  set (v := default [] (obj_get data columnId)) in *.
  set (s' := rebuild innerHTML data s columnId) in *. clearbody s'.
  assert (forall c, In c (board_cards s) -> c < List.length (store s)) as Hold.
  { intros c Hc. apply in_board_cards in Hc as (column & Hin & Hc). exact (Hv column c Hin Hc). }
  destruct (board_rebuilt
              (fun column => refreshed (with_cards
                 (fun _ => seq (List.length (store s)) (List.length v)) column))
              (seq (List.length (store s)) (List.length v)) (columns s) j)
    as [Hnd' Hin'].
  - intros column. rewrite col_cards_refreshed. reflexivity.
  - apply NoDup_seq.
  - intros c Hc Hc'. apply in_seq in Hc. specialize (Hold c Hc'). lia.
  - exact Hnd.
  - rewrite <- Hcols in Hnd', Hin'. split; [exact Hv' | split; [exact Hnd' |]].
    intros c Hc. rewrite Hst. destruct (Hin' c Hc) as [Hnew | Hc'].
    + apply in_seq in Hnew. rewrite lookup_app_r by lia.
      change (map ?f ?l) with (f <$> l). rewrite list_lookup_fmap.
      destruct (lookup_lt_is_Some_2 v (c - List.length (store s))) as [x ->]; [lia |].
      reflexivity.
    + rewrite lookup_app_l by (apply Hold, Hc'). apply Hone, Hc'.
Qed.

(** X21: when a snapshot is stored, every card that is on the board after
    the page has loaded carries two pairs of drag listeners: one from
    [createCardDOM] and one from the [DOMContentLoaded] listener, so that
    its [dragend] runs [saveData] twice. *)
Theorem stored_cards_listen_twice innerHTML s data :
  localStorage s = Some data ->
  let s' := dispatch innerHTML DOMContentLoaded s in
  forall c, In c (board_cards s') -> (drag_listeners <$> store s' !! c) = Some 2.
Proof.
  intros Hl. cbv zeta. cbn [dispatch]. unfold on_DOMContentLoaded.
  assert (freshly_built (loadData innerHTML s)) as (Hv & Hnd & Hone).
  { unfold loadData. rewrite Hl. apply fold_left_invariant; [| apply freshly_built_cleared].
    intros s' columnId _. apply freshly_built_rebuild. }
  set (s1 := loadData innerHTML s) in *. clearbody s1.
  fold (board_cards s1). intros c Hc.
  unfold board_cards in Hc. rewrite attach_all_columns in Hc. fold (board_cards s1) in Hc.
  specialize (Hone c Hc).
  destruct (store s1 !! c) as [k |] eqn:Hk; [| discriminate]. injection Hone as Hone.
  destruct (attach_all (board_cards s1) s1 c k Hk) as (k' & -> & _ & _ & _ & Hn).
  cbn. f_equal. rewrite Hn, Hone.
  apply NoDup_ListNoDup in Hnd.
  rewrite (proj1 (NoDup_count_occ' Nat.eq_dec (board_cards s1)) Hnd c Hc). reflexivity.
Qed.

(** ** Counters after [loadData] *)






(** ** Adding a task through the dialog *)


(** ** The highlight of a column *)

Lemma classList_remove_add c cs :
  classList_remove c (classList_add c cs) = classList_remove c cs.
Proof.
  unfold classList_add. destruct (has_class c cs); [reflexivity |].
  unfold classList_remove. rewrite List.filter_app. cbn [List.filter].
  rewrite String.eqb_refl. cbn. apply app_nil_r.
Qed.

Lemma classList_remove_absent c cs : ~ In c cs -> classList_remove c cs = cs.
Proof.
  unfold classList_remove. induction cs as [| x cs IH]; intros Hn; [reflexivity |].
  cbn [List.filter]. destruct (String.eqb_spec x c) as [E | E].
  - exfalso. apply Hn. left. exact E.
  - cbn. f_equal. apply IH. intros H. apply Hn. right. exact H.
Qed.

Lemma dragleave_absorbs i s : on_dragleave i (on_dragover i s) = on_dragleave i s.
Proof.
  unfold on_dragleave, on_dragover, on_column, set_columns. cbn. f_equal.
  rewrite alter_twice. apply list_alter_ext; [| reflexivity].
  intros column _. unfold with_col_classes. cbn. f_equal. apply classList_remove_add.
Qed.

(** X24: [dragover], however often it fires, followed by [dragleave] leaves
    a column that was not highlighted, and the whole page, as it was. *)
Theorem highlight_roundtrip innerHTML n i s column :
  columns s !! i = Some column ->
  ~ In "drag-over" (col_classes column) ->
  run innerHTML (repeat (DragOver i) n ++ [DragLeave i]) s = s.
Proof.
  intros Hi Hn.
  assert (forall s', run innerHTML (repeat (DragOver i) n ++ [DragLeave i]) s' =
                     on_dragleave i s') as Hrun.
  { induction n as [| n IH]; intros s'; [reflexivity |].
    cbn [repeat app]. unfold run. cbn [fold_left dispatch].
    fold (run innerHTML (repeat (DragOver i) n ++ [DragLeave i]) (on_dragover i s')).
    rewrite IH. apply dragleave_absorbs. }
  rewrite Hrun. unfold on_dragleave, on_column, set_columns.
  rewrite (alter_fixed _ _ _ column Hi).
  - destruct s; reflexivity.
  - destruct column as [id cls cnt cards]. unfold with_col_classes. cbn in *.
    f_equal. apply classList_remove_absent, Hn.
Qed.

(** ** Dropping a card on the column it is in *)


(** * The theorems above at the sample pages *)





Lemma dragstart_marks_card_witness :
  dispatch sample_innerHTML (DragStart 0) page_A =
  on_card 0 (with_classList (classList_add "dragging")) (set_draggedCard (Some 0) page_A).
Proof.
  apply (dragstart_marks_card sample_innerHTML page_A 0 card_A).
  - reflexivity.
  - cbn. lia.
Defined.


Lemma drop_without_drag_witness :
  on_drop 2 page_A = Normal (on_dragleave 2 page_A) /\
  forall column, columns (on_dragleave 2 page_A) !! 2 = Some column ->
    ~ In "drag-over" (col_classes column) /\
    exists column0, columns page_A !! 2 = Some column0 /\
      col_cards column = col_cards column0 /\ count_span column = count_span column0.
Proof. apply (drop_without_drag 2 page_A). reflexivity. Defined.


Lemma storage_written_by_saving_events_witness :
  localStorage (dispatch sample_innerHTML (ClickDelete 0 false) page_A) = localStorage page_A.
Proof. apply (storage_written_by_saving_events sample_innerHTML). reflexivity. Defined.

Lemma edit_target_set_by_two_events_witness :
  editingCard (dispatch sample_innerHTML Submit editing_page) = editingCard editing_page.
Proof. apply (edit_target_set_by_two_events sample_innerHTML). reflexivity. Defined.

Lemma dragged_card_set_by_two_events_witness :
  draggedCard (dispatch sample_innerHTML (Drop 2) dragging_A) = draggedCard dragging_A.
Proof. apply (dragged_card_set_by_two_events sample_innerHTML). reflexivity. Defined.

Lemma click_update_prefills_witness :
  let s' := final (on_click_update 0 page_A) in
  editingCard s' = Some 0 /\
  title_value (dialog s') = "A" /\ desc_value (dialog s') = "x" /\
  modalTitle (dialog s') = "Edit Task" /\ modalSubmitBtn (dialog s') = "Save Changes" /\
  ~ In "hidden" (overlay_classes (dialog s')) /\
  columns s' = columns page_A /\ store s' = store page_A /\
  localStorage s' = localStorage page_A.
Proof.
  apply (click_update_prefills page_A 0 card_A 0 "A" "x" (region_kids Template)).
  - reflexivity.
  - reflexivity.
  - reflexivity.
  - vm_compute. discriminate.
Defined.


Lemma first_load_attaches_listeners_witness :
  let s' := dispatch sample_innerHTML DOMContentLoaded static_page in
  columns s' = columns static_page /\
  exists k', store s' !! 0 = Some k' /\
    classList k' = ["card"] /\ draggable k' = true /\ body k' = card_template "A" "x" /\
    drag_listeners k' = 0 + count_occ Nat.eq_dec (board_cards static_page) 0.
Proof.
  apply (first_load_attaches_listeners sample_innerHTML static_page 0
           {| classList := ["card"]; draggable := true;
              body := card_template "A" "x"; drag_listeners := 0 |}).
  - reflexivity.
  - reflexivity.
Defined.

Lemma stored_cards_listen_twice_witness :
  In 1 (board_cards (dispatch sample_innerHTML DOMContentLoaded page_A)) /\
  (drag_listeners <$> store (dispatch sample_innerHTML DOMContentLoaded page_A) !! 1) = Some 2.
Proof.
  split; [left; reflexivity |].
  apply (stored_cards_listen_twice sample_innerHTML page_A
           [("todo", [{| title := "A"; desc := "x" |}]); ("in-progress", []); ("done", [])]).
  - reflexivity.
  - left. reflexivity.
Defined.





Lemma highlight_roundtrip_witness :
  run sample_innerHTML (repeat (DragOver 2) 3 ++ [DragLeave 2]) page_A = page_A.
Proof.
  apply (highlight_roundtrip sample_innerHTML 3 2 page_A (empty_column "done")).
  - reflexivity.
  - cbn. intros [H | []]. discriminate.
Defined.

